(** * go-client: listing the tools of a remote MCP server

    A shallow embedding of [src/go-client.go].  The program is one [main]
    function that parses a [-url] flag, logs the target, builds an SSE
    transport and an MCP client, defers [Close], asks for the tool list and
    prints one record per tool on standard output.

    The calls into [flag], [transport] and [client] are external: their
    outcomes are read from an environment [Env], and every call is recorded
    as an [Event] of the run, so that ordering and counting properties can be
    stated on the trace.  The [log] package is modelled from its documented
    behaviour: header, newline completion, one [Write] per record whose error
    is dropped, and [Fatalf] = [Printf] followed by [os.Exit(1)].

    A write on standard output or on the error stream can end in three
    ways: it is accepted, it returns an error to its caller, or it finds
    the pipe closed.  In the last case the Go runtime raises SIGPIPE and the
    process dies inside the write.  A [World] says for each write of a run
    whether its pipe is closed.  [run_in] is the run in a world; [run],
    [events] and [exit_code] are the run and its observations in a world
    whose pipes stay open. *)

From Stdlib Require Import String Ascii List ZArith Lia Bool PeanoNat.
Import ListNotations.
Open Scope string_scope.
Open Scope Z_scope.

(** ** Data *)

(** The two streams the program writes to. *)
Inductive Fd : Type := Stdout | Stderr.

Definition Fd_eqb (a b : Fd) : bool :=
  match a, b with
  | Stdout, Stdout | Stderr, Stderr => true
  | _, _ => false
  end.

(** What a [Write] on a stream answers: everything was written, or an
    error after [n] bytes.  *)
Inductive WriteOutcome : Type :=
| WriteOk
| WriteErr (n : nat).

(** [protocol.Tool], restricted to the two fields [main] reads. *)
Record Tool : Type := mkTool { Name : string; Description : string }.

(** An error value, represented by the text of its [Error()] method. *)
Definition error := string.

(** Handles returned by the library. *)
Inductive Transport : Type := SSEClientTransport (url : string).
Inductive Client : Type := MkClient (t : Transport).

(** Outcome of [flag.Parse()] on the command line, for the single flag
    [-url] registered by [main]. [flag.CommandLine] uses [ExitOnError].
    [out] holds the texts the package writes on the error stream, one write
    each: the usage header and the flag defaults, after the diagnostic
    line when the command line is bad. *)
Inductive FlagOutcome : Type :=
| FlagParsed (url : option string)  (* [None]: the flag was not given *)
| FlagHelp (out : list string)      (* -h / -help: usage printed, exit 0 *)
| FlagError (out : list string).    (* bad command line: diagnostics, exit 2 *)

(** The calls a run performs, each with the answer it got. *)
Inductive Event : Type :=
| EvFlagParse (r : FlagOutcome)
| EvWrite (fd : Fd) (buf : string) (r : WriteOutcome)
| EvNewSSEClientTransport (url : string) (r : option error)
| EvNewClient (t : Transport) (r : option error)
| EvListTools (c : Client) (r : error + list Tool)
| EvClose (c : Client)
| EvSigpipe (fd : Fd) (buf : string).
  (* a write that found its pipe closed: the process dies in it *)

(** Everything a run depends on that is not in the source. *)
Record Env : Type := mkEnv {
  flag_parse : FlagOutcome;
  (* date and time text of the standard logger for the record that is
     the [n]-th write of the run *)
  clock : nat -> string;
  (* answer of the [n]-th write of the run *)
  write_result : nat -> WriteOutcome;
  new_transport : string -> option error;
  new_client : Transport -> option error;
  list_tools : Client -> error + list Tool
}.

(** The answers of the environment, and for each write of the run whether
    it finds its pipe closed. *)
Record World : Type := mkWorld { answers : Env; pipe_closed : nat -> bool }.

(** The world in which no pipe is ever closed. *)
Definition quiet (e : Env) : World := mkWorld e (fun _ => false).

(** ** The process monad: a trace, a write counter, [os.Exit] and SIGPIPE *)

Record State : Type := mkState { trace : list Event; nwrites : nat }.

Inductive Result (A : Type) : Type :=
| Return (a : A)
| OsExit (code : Z)
| Killed.
Arguments Return {A} a.
Arguments OsExit {A} code.
Arguments Killed {A}.

Definition Proc (A : Type) : Type := World -> State -> State * Result A.

Definition ret {A} (a : A) : Proc A := fun _ s => (s, Return a).

Definition bind {A B} (m : Proc A) (k : A -> Proc B) : Proc B :=
  fun w s =>
    match m w s with
    | (s', Return a) => k a w s'
    | (s', OsExit c) => (s', OsExit c)
    | (s', Killed) => (s', Killed)
    end.

Declare Scope proc_scope.
Delimit Scope proc_scope with proc.
Notation "x <~ m ; k" := (bind m (fun x => k))
  (at level 90, m at next level, right associativity) : proc_scope.
Notation "m ;; k" := (bind m (fun _ => k))
  (at level 90, right associativity) : proc_scope.
Open Scope proc_scope.

Definition ask : Proc Env := fun w s => (s, Return (answers w)).

Definition emit (ev : Event) : Proc unit :=
  fun _ s => (mkState (trace s ++ [ev]) (nwrites s), Return tt).

(** [os.Exit(code)]: the process ends at once; deferred calls do not run. *)
Definition os_Exit {A} (code : Z) : Proc A := fun _ s => (s, OsExit code).

(** [defer d] at the head of [body]: [d] runs when [body] returns, and does
    not run when the process exits or is killed inside [body]. *)
Definition defer {A} (d : Proc unit) (body : Proc A) : Proc A :=
  fun w s =>
    match body w s with
    | (s', Return a) =>
        match d w s' with
        | (s'', Return _) => (s'', Return a)
        | (s'', OsExit c) => (s'', OsExit c)
        | (s'', Killed) => (s'', Killed)
        end
    | (s', OsExit c) => (s', OsExit c)
    | (s', Killed) => (s', Killed)
    end.

(** [for _, x := range xs { body x }] *)
Fixpoint for_range {A} (xs : list A) (body : A -> Proc unit) : Proc unit :=
  match xs with
  | [] => ret tt
  | x :: rest => body x ;; for_range rest body
  end.

(** ** Strings and formatting *)

Definition nl : string := String (ascii_of_nat 10) EmptyString.

(** Last byte of a string, if any. *)
Fixpoint last_byte (s : string) : option ascii :=
  match s with
  | EmptyString => None
  | String c EmptyString => Some c
  | String _ rest => last_byte rest
  end.

(** [fmt.Sprintf] for the verbs used in [main]: [%s] and [%v] insert the
    next operand's text, [%%] a percent sign.  A verb without operand prints
    Go's [%!v(MISSING)] marker. *)
Fixpoint Sprintf (format : string) (args : list string) : string :=
  match format with
  | EmptyString => EmptyString
  | String "%" (String "%" rest) => String "%" (Sprintf rest args)
  | String "%" (String v rest) =>
      if (Ascii.eqb v "s" || Ascii.eqb v "v")%bool then
        match args with
        | a :: args' => a ++ Sprintf rest args'
        | [] => "%!" ++ String v "(MISSING)" ++ Sprintf rest []
        end
      else String "%" (String v (Sprintf rest args))
  | String c rest => String c (Sprintf rest args)
  end.

(** ** The [log] package *)

Definition Ldate : Z := 1.
Definition Ltime : Z := 2.
Definition Lmicroseconds : Z := 4.
Definition LstdFlags : Z := Z.lor Ldate Ltime.

Record Logger : Type := mkLogger { out : Fd; prefix : string; flag : Z }.

Definition log_New (w : Fd) (pfx : string) (flg : Z) : Logger :=
  mkLogger w pfx flg.

(** The package-level logger behind [log.Printf] and [log.Fatalf]. *)
Definition std : Logger := log_New Stderr "" LstdFlags.

(** [f.Write(buf)] on descriptor 1 or 2: one event.  When the pipe is
    closed the runtime raises SIGPIPE and the write never returns; otherwise
    the answer comes from the environment. *)
Definition File_Write (fd : Fd) (buf : string) : Proc WriteOutcome :=
  fun w s =>
    if pipe_closed w (nwrites s) then
      (mkState (trace s ++ [EvSigpipe fd buf]) (S (nwrites s)), Killed)
    else
      let r := write_result (answers w) (nwrites s) in
      (mkState (trace s ++ [EvWrite fd buf r]) (S (nwrites s)), Return r).

(** Header of a record: the prefix, then date and time when asked for. *)
Definition formatHeader (l : Logger) (now : string) : string :=
  prefix l ++
  (if Z.land (flag l) (Z.lor (Z.lor Ldate Ltime) Lmicroseconds) =? 0
   then "" else now).

(** A record always ends with a newline: one is added when missing. *)
Definition end_line (buf : string) : string :=
  match last_byte buf with
  | Some c => if Ascii.eqb c (ascii_of_nat 10) then buf else buf ++ nl
  | None => buf ++ nl
  end.

(** [l.Printf(format, args...)]: the error of [Write] is dropped. *)
Definition Logger_Printf (l : Logger) (format : string) (args : list string)
  : Proc unit :=
  fun w s =>
    let buf := end_line (formatHeader l (clock (answers w) (nwrites s)) ++
                         Sprintf format args) in
    (File_Write (out l) buf ;; ret tt) w s.

Definition log_Printf (format : string) (args : list string) : Proc unit :=
  Logger_Printf std format args.

(** [log.Fatalf] is [Printf] followed by [os.Exit(1)]. *)
Definition log_Fatalf {A} (format : string) (args : list string) : Proc A :=
  log_Printf format args ;; os_Exit 1.

(** ** The external packages *)

(** [flag.StringVar(&v, name, value, usage)] then [flag.Parse()]: the
    variable holds the default unless the command line sets it.  On [-help]
    the usage goes to the error stream and the process exits with 0, on a bad
    command line the diagnostics go there and the process exits with 2; each
    text is a write of its own. *)
Definition flag_Parse (value : string) : Proc string :=
  e <~ ask ;
  emit (EvFlagParse (flag_parse e)) ;;
  match flag_parse e with
  | FlagParsed (Some v) => ret v
  | FlagParsed None => ret value
  | FlagHelp out =>
      for_range out (fun t => File_Write Stderr t ;; ret tt) ;; os_Exit 0
  | FlagError out =>
      for_range out (fun t => File_Write Stderr t ;; ret tt) ;; os_Exit 2
  end.

(** [transport.NewSSEClientTransport(url)] *)
Definition transport_NewSSEClientTransport (url : string)
  : Proc (error + Transport) :=
  e <~ ask ;
  emit (EvNewSSEClientTransport url (new_transport e url)) ;;
  match new_transport e url with
  | Some err => ret (inl err)
  | None => ret (inr (SSEClientTransport url))
  end.

(** [client.NewClient(t)] *)
Definition client_NewClient (t : Transport) : Proc (error + Client) :=
  e <~ ask ;
  emit (EvNewClient t (new_client e t)) ;;
  match new_client e t with
  | Some err => ret (inl err)
  | None => ret (inr (MkClient t))
  end.

(** [c.ListTools(ctx)] *)
Definition Client_ListTools (c : Client) : Proc (error + list Tool) :=
  e <~ ask ;
  emit (EvListTools c (list_tools e c)) ;;
  ret (list_tools e c).

(** [c.Close()]; [main] drops its result. *)
Definition Client_Close (c : Client) : Proc unit := emit (EvClose c).

(** ** The program *)

Definition default_url : string := "https://mcp-td1.swormlab.com/sse".

Definition main : Proc unit :=
  mcpURL <~ flag_Parse default_url ;
  log_Printf "Connecting to MCP server: %s" [mcpURL] ;;
  r <~ transport_NewSSEClientTransport mcpURL ;
  match r with
  | inl err => log_Fatalf "Failed to create transport client: %v" [err]
  | inr transportClient =>
      r <~ client_NewClient transportClient ;
      match r with
      | inl err => log_Fatalf "Failed to create MCP client: %v" [err]
      | inr mcpClient =>
          defer (Client_Close mcpClient)
            (r <~ Client_ListTools mcpClient ;
             match r with
             | inl err => log_Fatalf "Failed to list tools: %v" [err]
             | inr tools =>
                 let logger := log_New Stdout "" 0 in
                 for_range tools (fun tool =>
                   Logger_Printf logger ("Name: %s Description: %s" ++ nl)
                                 [Name tool; Description tool])
             end)
      end
  end.

(** How a process ended: with an exit code, or killed by SIGPIPE. *)
Inductive Status : Type :=
| Exited (code : Z)
| Signaled.

Definition init : State := mkState [] 0.

(** A run of the process in a world: the calls made and how it ended.
    Returning from [main] ends the process with code 0. *)
Definition run_in (w : World) : list Event * Status :=
  match main w init with
  | (s, Return _) => (trace s, Exited 0)
  | (s, OsExit c) => (trace s, Exited c)
  | (s, Killed) => (trace s, Signaled)
  end.

Definition events_in (w : World) : list Event := fst (run_in w).
Definition status_in (w : World) : Status := snd (run_in w).

(** The run when every pipe stays open: the calls made and the exit code.
    No write kills the process then; -1 stands for a death by signal, as in
    [ProcessState.ExitCode]. *)
Definition run (e : Env) : list Event * Z :=
  match main (quiet e) init with
  | (s, Return _) => (trace s, 0)
  | (s, OsExit c) => (trace s, c)
  | (s, Killed) => (trace s, -1)
  end.

Definition events (e : Env) : list Event := fst (run e).
Definition exit_code (e : Env) : Z := snd (run e).

(** ** Observations on a trace *)

(** The records handed to [Write] on stream [fd], in order, by the writes
    that returned. *)
Fixpoint writes_to (fd : Fd) (tr : list Event) : list string :=
  match tr with
  | [] => []
  | EvWrite fd' buf _ :: rest =>
      if Fd_eqb fd fd' then buf :: writes_to fd rest else writes_to fd rest
  | _ :: rest => writes_to fd rest
  end.

(** The bytes a write really put on the stream. *)
Definition accepted (buf : string) (r : WriteOutcome) : string :=
  match r with
  | WriteOk => buf
  | WriteErr n => substring 0 n buf
  end.

(** The content of stream [fd] after the run. *)
Fixpoint content (fd : Fd) (tr : list Event) : string :=
  match tr with
  | [] => ""
  | EvWrite fd' buf r :: rest =>
      if Fd_eqb fd fd' then accepted buf r ++ content fd rest
      else content fd rest
  | _ :: rest => content fd rest
  end.

Definition is_ListTools (ev : Event) : bool :=
  match ev with EvListTools _ _ => true | _ => false end.

Definition is_Close (ev : Event) : bool :=
  match ev with EvClose _ => true | _ => false end.

Definition count (p : Event -> bool) (tr : list Event) : nat :=
  length (filter p tr).

(** Number of line ends in a text. *)
Fixpoint count_lines (s : string) : nat :=
  match s with
  | EmptyString => 0%nat
  | String c rest =>
      ((if Ascii.eqb c (ascii_of_nat 10) then 1 else 0) + count_lines rest)%nat
  end.

(** The record printed for one tool. *)
Definition tool_line (t : Tool) : string :=
  "Name: " ++ Name t ++ " Description: " ++ Description t ++ nl.

(** The address [main] connects to, and the handles it gets. *)
Definition mcp_url (e : Env) : string :=
  match flag_parse e with
  | FlagParsed (Some v) => v
  | _ => default_url
  end.

Definition the_transport (e : Env) : Transport :=
  SSEClientTransport (mcp_url e).

Definition the_client (e : Env) : Client := MkClient (the_transport e).

Definition parsed (o : FlagOutcome) : bool :=
  match o with FlagParsed _ => true | _ => false end.

(** The command line was accepted and both constructors succeeded. *)
Definition connected (e : Env) : Prop :=
  parsed (flag_parse e) = true /\
  new_transport e (mcp_url e) = None /\
  new_client e (the_transport e) = None.

(** Concatenation of a list of texts. *)
Fixpoint join (l : list string) : string :=
  match l with
  | [] => ""
  | x :: rest => x ++ join rest
  end.

(** A text without line end. *)
Definition one_line (s : string) : Prop := count_lines s = 0%nat.

(** A library call that answered with an error. *)
Definition failed (ev : Event) : bool :=
  match ev with
  | EvNewSSEClientTransport _ (Some _) => true
  | EvNewClient _ (Some _) => true
  | EvListTools _ (inl _) => true
  | _ => false
  end.

(** The first record of a run, on the error stream. *)
Definition startup (e : Env) : Event :=
  EvWrite Stderr
    (end_line (clock e 0 ++ "Connecting to MCP server: " ++ mcp_url e))
    (write_result e 0).

(** The record of [log.Fatalf], the second write of a failing run. *)
Definition fatal (e : Env) (what : string) (err : error) : Event :=
  EvWrite Stderr (end_line (clock e 1 ++ what ++ err)) (write_result e 1).

(** The writes of the printing loop when it starts at write number [n]. *)
Fixpoint loop_events (e : Env) (n : nat) (tools : list Tool) : list Event :=
  match tools with
  | [] => []
  | t :: rest =>
      EvWrite Stdout (tool_line t) (write_result e n)
        :: loop_events e (S n) rest
  end.

(** A constructor that answered an error. *)
Definition connect_failed (ev : Event) : bool :=
  match ev with
  | EvNewSSEClientTransport _ (Some _) => true
  | EvNewClient _ (Some _) => true
  | _ => false
  end.

(** The writes of [texts] on [fd], starting at write number [n], when
    every pipe stays open. *)
Fixpoint write_events (e : Env) (n : nat) (fd : Fd) (texts : list string)
  : list Event :=
  match texts with
  | [] => []
  | t :: rest =>
      EvWrite fd t (write_result e n) :: write_events e (S n) fd rest
  end.

(** Every run with open pipes has one of six shapes, chosen by the answers
    of the environment. *)
Definition run_shape (e : Env) : list Event * Z :=
  match flag_parse e with
  | FlagHelp out =>
      (EvFlagParse (flag_parse e) :: write_events e 0 Stderr out, 0)
  | FlagError out =>
      (EvFlagParse (flag_parse e) :: write_events e 0 Stderr out, 2)
  | FlagParsed _ =>
      match new_transport e (mcp_url e) with
      | Some err =>
          ([EvFlagParse (flag_parse e); startup e;
            EvNewSSEClientTransport (mcp_url e) (Some err);
            fatal e "Failed to create transport client: " err], 1)
      | None =>
          match new_client e (the_transport e) with
          | Some err =>
              ([EvFlagParse (flag_parse e); startup e;
                EvNewSSEClientTransport (mcp_url e) None;
                EvNewClient (the_transport e) (Some err);
                fatal e "Failed to create MCP client: " err], 1)
          | None =>
              match list_tools e (the_client e) with
              | inl err =>
                  ([EvFlagParse (flag_parse e); startup e;
                    EvNewSSEClientTransport (mcp_url e) None;
                    EvNewClient (the_transport e) None;
                    EvListTools (the_client e) (inl err);
                    fatal e "Failed to list tools: " err], 1)
              | inr tools =>
                  (([EvFlagParse (flag_parse e); startup e;
                     EvNewSSEClientTransport (mcp_url e) None;
                     EvNewClient (the_transport e) None;
                     EvListTools (the_client e) (inr tools)]
                      ++ loop_events e 1 tools
                      ++ [EvClose (the_client e)])%list,
                   0)
              end
          end
      end
  end.

(** ** Runs in a world *)

(** The writes of [texts] on [fd], starting at write number [n], in a
    world: they stop at the first one that finds its pipe closed.  The
    boolean tells whether the process was killed. *)
Fixpoint write_run (w : World) (n : nat) (fd : Fd) (texts : list string)
  : list Event * bool :=
  match texts with
  | [] => ([], false)
  | t :: rest =>
      if pipe_closed w n then ([EvSigpipe fd t], true)
      else
        let (evs, k) := write_run w (S n) fd rest in
        (EvWrite fd t (write_result (answers w) n) :: evs, k)
  end.

Definition ended (killed : bool) (code : Z) : Status :=
  if killed then Signaled else Exited code.

Definition startup_text (e : Env) : string :=
  end_line (clock e 0 ++ "Connecting to MCP server: " ++ mcp_url e).

Definition fatal_text (e : Env) (what : string) (err : error) : string :=
  end_line (clock e 1 ++ what ++ err).

(** The end of a failing run: the [log.Fatalf] record, then exit 1. *)
Definition fatal_in (w : World) (what : string) (err : error)
  : list Event * Status :=
  if pipe_closed w 1 then
    ([EvSigpipe Stderr (fatal_text (answers w) what err)], Signaled)
  else ([fatal (answers w) what err], Exited 1).

(** The shapes of a run in a world. *)
Definition run_in_shape (w : World) : list Event * Status :=
  let e := answers w in
  match flag_parse e with
  | FlagHelp out =>
      let (evs, k) := write_run w 0 Stderr out in
      (EvFlagParse (flag_parse e) :: evs, ended k 0)
  | FlagError out =>
      let (evs, k) := write_run w 0 Stderr out in
      (EvFlagParse (flag_parse e) :: evs, ended k 2)
  | FlagParsed _ =>
      if pipe_closed w 0 then
        ([EvFlagParse (flag_parse e); EvSigpipe Stderr (startup_text e)],
         Signaled)
      else
        match new_transport e (mcp_url e) with
        | Some err =>
            let (evs, st) :=
              fatal_in w "Failed to create transport client: " err in
            (([EvFlagParse (flag_parse e); startup e;
               EvNewSSEClientTransport (mcp_url e) (Some err)]
                ++ evs)%list, st)
        | None =>
            match new_client e (the_transport e) with
            | Some err =>
                let (evs, st) :=
                  fatal_in w "Failed to create MCP client: " err in
                (([EvFlagParse (flag_parse e); startup e;
                   EvNewSSEClientTransport (mcp_url e) None;
                   EvNewClient (the_transport e) (Some err)]
                    ++ evs)%list, st)
            | None =>
                match list_tools e (the_client e) with
                | inl err =>
                    let (evs, st) :=
                      fatal_in w "Failed to list tools: " err in
                    (([EvFlagParse (flag_parse e); startup e;
                       EvNewSSEClientTransport (mcp_url e) None;
                       EvNewClient (the_transport e) None;
                       EvListTools (the_client e) (inl err)]
                        ++ evs)%list, st)
                | inr tools =>
                    let (evs, k) :=
                      write_run w 1 Stdout (map tool_line tools) in
                    (([EvFlagParse (flag_parse e); startup e;
                       EvNewSSEClientTransport (mcp_url e) None;
                       EvNewClient (the_transport e) None;
                       EvListTools (the_client e) (inr tools)]
                        ++ evs
                        ++ (if k then [] else [EvClose (the_client e)]))%list,
                     ended k 0)
                end
            end
        end
  end.

(** A write on [fd], returned or not. *)
Definition on_fd (fd : Fd) (ev : Event) : bool :=
  match ev with
  | EvWrite fd' _ _ | EvSigpipe fd' _ => Fd_eqb fd fd'
  | _ => false
  end.

(** ** Statements used by the claims *)

(** No write of the run finds its pipe closed. *)
Definition open_pipes (w : World) : Prop :=
  forall n, pipe_closed w n = false.

(** Every write of the run succeeds. *)
Definition writes_succeed (w : World) : Prop :=
  forall n, pipe_closed w n = false /\ write_result (answers w) n = WriteOk.

(** Write [k] is the first one that finds its pipe closed. *)
Definition first_closed (w : World) (k : nat) : Prop :=
  pipe_closed w k = true /\ forall j, (j < k)%nat -> pipe_closed w j = false.

(** [record] is the text [body] as a line: [body] itself when it ends with
    a newline, [body] followed by a newline when it does not. *)
Definition completes (body record : string) : Prop :=
  (last_byte body = Some (ascii_of_nat 10) /\ record = body) \/
  (last_byte body <> Some (ascii_of_nat 10) /\ record = body ++ nl).

(** What a failing phase leaves behind: an exit code other than 0, nothing
    on standard output, and on the error stream two records: the startup
    line, then a line made of the time, the text [what] that names the
    phase and the text of the error. *)
Definition reports (w : World) (what : string) (err : error) : Prop :=
  let e := answers w in
  (exists c, status_in w = Exited c /\ c <> 0) /\
  writes_to Stdout (events_in w) = [] /\
  (exists first second,
      writes_to Stderr (events_in w) = [first; second] /\
      completes (clock e 0 ++ "Connecting to MCP server: " ++ mcp_url e)
                first /\
      completes (clock e 1 ++ what ++ err) second /\
      (write_result e 1 = WriteOk ->
       exists before, content Stderr (events_in w) = before ++ second)).

(** C5 as it is stated: a failed write on standard output ends the run
    with a code other than 0. *)
Definition write_error_is_fatal (e : Env) : Prop :=
  forall buf n,
    In (EvWrite Stdout buf (WriteErr n)) (events e) -> exit_code e <> 0.

(** C6 as it is stated: the text on standard output has as many lines as
    the listing has descriptors. *)
Definition one_line_per_descriptor (e : Env) (tools : list Tool) : Prop :=
  count_lines (content Stdout (events e)) = length tools.

(** ** Sample inputs *)

Definition toolsAB : list Tool := [mkTool "A" "d1"; mkTool "B" "d2"].

(** An environment in which everything succeeds. *)
Definition ok_env (url : option string) (tools : list Tool) : Env :=
  mkEnv (FlagParsed url) (fun _ => "2025/01/02 03:04:05 ")
        (fun _ => WriteOk) (fun _ => None) (fun _ => None)
        (fun _ => inr tools).

(** The server is reached but the listing request fails. *)
Definition list_fail_env : Env :=
  mkEnv (FlagParsed None) (fun _ => "2025/01/02 03:04:05 ")
        (fun _ => WriteOk) (fun _ => None) (fun _ => None)
        (fun _ => inl "connection reset").

(** The address does not resolve. *)
Definition unreachable_env : Env :=
  mkEnv (FlagParsed (Some "http://nowhere/sse"))
        (fun _ => "2025/01/02 03:04:05 ")
        (fun _ => WriteOk) (fun _ => Some "no such host") (fun _ => None)
        (fun _ => inr toolsAB).

(** The handshake is rejected. *)
Definition handshake_env : Env :=
  mkEnv (FlagParsed None) (fun _ => "2025/01/02 03:04:05 ")
        (fun _ => WriteOk) (fun _ => None) (fun _ => Some "initialize failed")
        (fun _ => inr toolsAB).

(** Standard output is a file on a full disk: every write on it fails.
    Write 0 is the startup record on the error stream. *)
Definition full_disk_env : Env :=
  mkEnv (FlagParsed None) (fun _ => "2025/01/02 03:04:05 ")
        (fun n => if Nat.eqb n 0 then WriteOk else WriteErr 0)
        (fun _ => None) (fun _ => None) (fun _ => inr toolsAB).

(** A tool whose description spans two lines. *)
Definition two_line_tool : Tool :=
  mkTool "query" ("Runs a query." ++ nl ++ "Returns rows.").

(** A call into the [transport] or [client] package. *)
Definition is_call (ev : Event) : bool :=
  match ev with
  | EvNewSSEClientTransport _ _ | EvNewClient _ _
  | EvListTools _ _ | EvClose _ => true
  | _ => false
  end.

(** The value the [-url] flag variable holds after parsing. *)
Definition flag_value (u : option string) : string :=
  match u with
  | Some v => v
  | None => "https://mcp-td1.swormlab.com/sse"
  end.

(** Standard output is a pipe whose reader leaves after the first record:
    write 0 is the startup record, write 1 the first tool record, and from
    write 2 on the pipe is closed. *)
Definition head_world : World :=
  mkWorld (ok_env None toolsAB) (fun n => Nat.leb 2 n).

(** The command line names a flag that is not defined. *)
Definition bad_flag_env : Env :=
  mkEnv (FlagError
           ["flag provided but not defined: -uri" ++ nl;
            "Usage of go-client:" ++ nl;
            "  -url string" ++ nl ++ "    " ++ String (ascii_of_nat 9)
              "MCP server URL (default " ++ String (ascii_of_nat 34)
              "https://mcp-td1.swormlab.com/sse" ++ String (ascii_of_nat 34)
              ")" ++ nl])
        (fun _ => "2025/01/02 03:04:05 ")
        (fun _ => WriteOk) (fun _ => None) (fun _ => None)
        (fun _ => inr toolsAB).

(** ** Tactics *)

(** Membership in an explicit list, one element at a time. *)
Ltac in_cases H :=
  cbn [In] in H;
  repeat (destruct H as [H|H]; [try (subst; discriminate) |]);
  try contradiction.

(** The list on the right of [H] split at an element of the left. *)
Ltac split_at H :=
  lazymatch type of H with
  | (?pre ++ _ :: _)%list = [] => destruct pre; discriminate H
  | (?pre ++ _ :: _)%list = _ :: _ =>
      let x := fresh "x" in
      let Hx := fresh "Hx" in
      destruct pre as [|x pre]; cbn [app] in H;
      [ try discriminate H
      | injection H as Hx H; subst x; split_at H ]
  | _ => idtac
  end.

(** A membership [H] in a run that, by the lemma [L], holds a flag event
    and writes only, against what [H] is about. *)
Ltac flag_absurd L H :=
  apply L in H;
  destruct H as [H|(?b & ?r' & H)];
  (discriminate H || (subst; discriminate)).

(** Case analysis on [run_in_shape w]. *)
Ltac world_cases w :=
  unfold run_in_shape, fatal_in;
  destruct (flag_parse (answers w)) as [?u|?texts|?texts] eqn:?Hflag;
  [ destruct (pipe_closed w 0) eqn:?Hp0;
    [ | destruct (new_transport (answers w) (mcp_url (answers w)))
          as [?err|] eqn:?Htr;
        [ destruct (pipe_closed w 1) eqn:?Hp1
        | destruct (new_client (answers w) (the_transport (answers w)))
            as [?err|] eqn:?Hcl;
          [ destruct (pipe_closed w 1) eqn:?Hp1
          | destruct (list_tools (answers w) (the_client (answers w)))
              as [?err|?tools] eqn:?Hls;
            [ destruct (pipe_closed w 1) eqn:?Hp1
            | match goal with
              | |- context [write_run w 1 Stdout ?l] =>
                  destruct (write_run w 1 Stdout l) as [?evs [|]] eqn:?Hwr
              end ] ] ] ]
  | match goal with
    | |- context [write_run w 0 Stderr ?l] =>
        destruct (write_run w 0 Stderr l) as [?evs [|]] eqn:?Hwr
    end
  | match goal with
    | |- context [write_run w 0 Stderr ?l] =>
        destruct (write_run w 0 Stderr l) as [?evs [|]] eqn:?Hwr
    end ];
  cbn [fst snd app ended].

(** Case analysis on [run_shape e]. *)
Ltac run_cases e :=
  unfold run_shape;
  destruct (flag_parse e) as [?u|?texts|?texts] eqn:?Hflag;
  [ destruct (new_transport e (mcp_url e)) as [?err|] eqn:?Htr;
    [ | destruct (new_client e (the_transport e)) as [?err|] eqn:?Hcl;
        [ | destruct (list_tools e (the_client e)) as [?err|?tools] eqn:?Hls ] ]
  | | ];
  cbn [fst snd].

(** ** Lemmas on strings *)

Lemma append_assoc (a b c : string) : (a ++ b) ++ c = a ++ (b ++ c).
Proof. induction a as [|x a IH]; simpl; [reflexivity | now rewrite IH]. Qed.

Lemma append_nil_r (a : string) : a ++ "" = a.
Proof. induction a as [|x a IH]; simpl; [reflexivity | now rewrite IH]. Qed.

Lemma last_byte_app_r (a b : string) (c : ascii) :
  last_byte b = Some c -> last_byte (a ++ b) = Some c.
Proof.
  intros Hb. induction a as [|x a IH]; [exact Hb|].
  change (String x a ++ b) with (String x (a ++ b)).
  destruct (a ++ b) as [|y r] eqn:E; [discriminate IH | exact IH].
Qed.

Lemma end_line_nl (a : string) : end_line (a ++ nl) = a ++ nl.
Proof.
  unfold end_line.
  rewrite (last_byte_app_r a nl (ascii_of_nat 10) eq_refl).
  now rewrite Ascii.eqb_refl.
Qed.

Lemma end_line_completes (s : string) : completes s (end_line s).
Proof.
  unfold completes, end_line. destruct (last_byte s) as [c|] eqn:E.
  - destruct (Ascii.eqb c (ascii_of_nat 10)) eqn:Ec.
    + apply Ascii.eqb_eq in Ec. subst c. now left.
    + right. split; [|reflexivity]. intros H. injection H as ->.
      now rewrite Ascii.eqb_refl in Ec.
  - right. now split.
Qed.

Lemma count_lines_app (a b : string) :
  count_lines (a ++ b) = (count_lines a + count_lines b)%nat.
Proof. induction a as [|x a IH]; simpl; [reflexivity | rewrite IH; lia]. Qed.

(** The record the stdout logger builds for a tool is [tool_line]. *)
Lemma stdout_record (now : string) (t : Tool) :
  end_line (formatHeader (log_New Stdout "" 0) now ++
            Sprintf ("Name: %s Description: %s" ++ nl)
                    [Name t; Description t]) = tool_line t.
Proof.
  transitivity
    (end_line (("Name: " ++ Name t ++ " Description: " ++ Description t)
               ++ nl)).
  - f_equal. rewrite !append_assoc. reflexivity.
  - rewrite end_line_nl, !append_assoc. reflexivity.
Qed.

(** ** The shape of a run *)

(** A loop whose body is one write per element. *)
Lemma for_range_writes (A : Type) (f : A -> string) (fd : Fd)
      (body : A -> Proc unit) (w : World) :
  (forall x s, body x w s = (File_Write fd (f x) ;; ret tt) w s) ->
  forall xs s,
    for_range xs body w s =
    (mkState (trace s ++ fst (write_run w (nwrites s) fd (map f xs)))
             (nwrites s
              + length (fst (write_run w (nwrites s) fd (map f xs)))),
     if snd (write_run w (nwrites s) fd (map f xs))
     then Killed else Return tt).
Proof.
  intros Hbody. induction xs as [|x rest IH]; intros [tr n].
  - cbn. now rewrite app_nil_r, Nat.add_0_r.
  - cbn [for_range map write_run]. unfold bind at 1. rewrite Hbody.
    unfold bind, File_Write, ret. cbn [trace nwrites].
    destruct (pipe_closed w n) eqn:Hn.
    + cbn. now rewrite Nat.add_1_r.
    + rewrite IH. cbn [trace nwrites].
      destruct (write_run w (S n) fd (map f rest)) as [evs k].
      cbn [fst snd length]. rewrite <- app_assoc. cbn [app].
      now rewrite Nat.add_succ_r.
Qed.

Lemma print_loop_in (w : World) (tools : list Tool) (s : State) :
  for_range tools
    (fun tool =>
       Logger_Printf (log_New Stdout "" 0) ("Name: %s Description: %s" ++ nl)
                     [Name tool; Description tool]) w s
  = (mkState (trace s
              ++ fst (write_run w (nwrites s) Stdout (map tool_line tools)))
             (nwrites s
              + length (fst (write_run w (nwrites s) Stdout
                                       (map tool_line tools)))),
     if snd (write_run w (nwrites s) Stdout (map tool_line tools))
     then Killed else Return tt).
Proof.
  apply (for_range_writes Tool tool_line Stdout). intros t s'.
  unfold Logger_Printf. now rewrite stdout_record.
Qed.

Lemma flag_loop_in (w : World) (out : list string) (s : State) :
  for_range out (fun t => File_Write Stderr t ;; ret tt) w s
  = (mkState (trace s ++ fst (write_run w (nwrites s) Stderr out))
             (nwrites s + length (fst (write_run w (nwrites s) Stderr out))),
     if snd (write_run w (nwrites s) Stderr out) then Killed else Return tt).
Proof.
  rewrite (for_range_writes string (fun t => t) Stderr _ w
             (fun _ _ => eq_refl) out s).
  now rewrite map_id.
Qed.

Lemma log_Printf_eq (format : string) (args : list string) (w : World)
      (s : State) :
  log_Printf format args w s =
  if pipe_closed w (nwrites s) then
    (mkState (trace s ++
              [EvSigpipe Stderr
                 (end_line (clock (answers w) (nwrites s)
                            ++ Sprintf format args))])
             (S (nwrites s)), Killed)
  else
    (mkState (trace s ++
              [EvWrite Stderr
                 (end_line (clock (answers w) (nwrites s)
                            ++ Sprintf format args))
                 (write_result (answers w) (nwrites s))])
             (S (nwrites s)), Return tt).
Proof.
  unfold log_Printf, Logger_Printf, bind, File_Write, ret.
  now destruct (pipe_closed w (nwrites s)).
Qed.

Lemma log_Fatalf_eq (A : Type) (format : string) (args : list string)
      (w : World) (s : State) :
  @log_Fatalf A format args w s =
  if pipe_closed w (nwrites s) then
    (mkState (trace s ++
              [EvSigpipe Stderr
                 (end_line (clock (answers w) (nwrites s)
                            ++ Sprintf format args))])
             (S (nwrites s)), Killed)
  else
    (mkState (trace s ++
              [EvWrite Stderr
                 (end_line (clock (answers w) (nwrites s)
                            ++ Sprintf format args))
                 (write_result (answers w) (nwrites s))])
             (S (nwrites s)), OsExit 1).
Proof.
  unfold log_Fatalf, bind. rewrite log_Printf_eq.
  now destruct (pipe_closed w (nwrites s)).
Qed.

Lemma run_in_unfold (w : World) : run_in w = run_in_shape w.
Proof.
  destruct w as [e pipe].
  unfold run_in, run_in_shape, main, fatal_in, startup_text, fatal_text,
    startup, fatal, the_client, the_transport, mcp_url.
  unfold bind at 1. unfold flag_Parse, bind at 1 2, ask, emit.
  cbn [answers pipe_closed trace nwrites init app].
  destruct (flag_parse e) as [[v|]|out|out].
  - unfold ret at 1. unfold bind at 1. rewrite log_Printf_eq.
    cbn [answers pipe_closed trace nwrites app].
    destruct (pipe 0%nat); [cbn; now rewrite ?append_nil_r|].
    unfold bind at 1.
    unfold transport_NewSSEClientTransport, bind at 1 2, ask, emit.
    cbn [answers pipe_closed trace nwrites app].
    destruct (new_transport e v) as [err|]; unfold ret at 1.
    { rewrite log_Fatalf_eq. cbn [answers pipe_closed trace nwrites app].
      destruct (pipe 1%nat); cbn; now rewrite ?append_nil_r. }
    unfold bind at 1. unfold client_NewClient, bind at 1 2, ask, emit.
    cbn [answers pipe_closed trace nwrites app].
    destruct (new_client e (SSEClientTransport v)) as [err|]; unfold ret at 1.
    { rewrite log_Fatalf_eq. cbn [answers pipe_closed trace nwrites app].
      destruct (pipe 1%nat); cbn; now rewrite ?append_nil_r. }
    unfold defer, bind at 1, Client_ListTools, bind at 1 2, ask, emit,
      Client_Close.
    cbn [answers pipe_closed trace nwrites app].
    destruct (list_tools e (MkClient (SSEClientTransport v))) as [err|tools];
      unfold ret at 1.
    { rewrite log_Fatalf_eq. cbn [answers pipe_closed trace nwrites app].
      destruct (pipe 1%nat); cbn; now rewrite ?append_nil_r. }
    rewrite print_loop_in. cbn [trace nwrites answers pipe_closed].
    destruct (write_run _ 1 Stdout (map tool_line tools)) as [evs [|]];
      cbn; now rewrite ?append_nil_r, ?app_nil_r, <- ?app_assoc.
  - unfold ret at 1. unfold bind at 1. rewrite log_Printf_eq.
    cbn [answers pipe_closed trace nwrites app].
    destruct (pipe 0%nat); [cbn; now rewrite ?append_nil_r|].
    unfold bind at 1.
    unfold transport_NewSSEClientTransport, bind at 1 2, ask, emit.
    cbn [answers pipe_closed trace nwrites app].
    destruct (new_transport e default_url) as [err|]; unfold ret at 1.
    { rewrite log_Fatalf_eq. cbn [answers pipe_closed trace nwrites app].
      destruct (pipe 1%nat); cbn; now rewrite ?append_nil_r. }
    unfold bind at 1. unfold client_NewClient, bind at 1 2, ask, emit.
    cbn [answers pipe_closed trace nwrites app].
    destruct (new_client e (SSEClientTransport default_url)) as [err|];
      unfold ret at 1.
    { rewrite log_Fatalf_eq. cbn [answers pipe_closed trace nwrites app].
      destruct (pipe 1%nat); cbn; now rewrite ?append_nil_r. }
    unfold defer, bind at 1, Client_ListTools, bind at 1 2, ask, emit,
      Client_Close.
    cbn [answers pipe_closed trace nwrites app].
    destruct (list_tools e (MkClient (SSEClientTransport default_url)))
      as [err|tools]; unfold ret at 1.
    { rewrite log_Fatalf_eq. cbn [answers pipe_closed trace nwrites app].
      destruct (pipe 1%nat); cbn; now rewrite ?append_nil_r. }
    rewrite print_loop_in. cbn [trace nwrites answers pipe_closed].
    destruct (write_run _ 1 Stdout (map tool_line tools)) as [evs [|]];
      cbn; now rewrite ?append_nil_r, ?app_nil_r, <- ?app_assoc.
  - unfold bind. rewrite flag_loop_in. cbn [trace nwrites app].
    destruct (write_run _ 0 Stderr out) as [evs [|]]; reflexivity.
  - unfold bind. rewrite flag_loop_in. cbn [trace nwrites app].
    destruct (write_run _ 0 Stderr out) as [evs [|]]; reflexivity.
Qed.

(** With open pipes the writes all return. *)
Lemma write_run_quiet (e : Env) (n : nat) (fd : Fd) (texts : list string) :
  write_run (quiet e) n fd texts = (write_events e n fd texts, false).
Proof.
  revert n. induction texts as [|t rest IH]; intros n; [reflexivity|].
  cbn. now rewrite IH.
Qed.

Lemma write_run_open (w : World) (n : nat) (fd : Fd) (texts : list string) :
  (forall j, (j < length texts)%nat -> pipe_closed w (n + j) = false) ->
  write_run w n fd texts = (write_events (answers w) n fd texts, false).
Proof.
  revert n. induction texts as [|t rest IH]; intros n Hopen; [reflexivity|].
  cbn [write_run write_events].
  assert (H0 : pipe_closed w n = false).
  { rewrite <- (Nat.add_0_r n). apply Hopen. cbn. lia. }
  rewrite H0, IH; [reflexivity|].
  intros j Hj. replace (S n + j)%nat with (n + S j)%nat by lia.
  apply Hopen. cbn. lia.
Qed.

(** The writes up to the first closed pipe return; that one kills. *)
Lemma write_run_killed (w : World) (fd : Fd) (texts : list string)
      (n j : nat) :
  (j < length texts)%nat ->
  (forall i, (i < j)%nat -> pipe_closed w (n + i) = false) ->
  pipe_closed w (n + j) = true ->
  write_run w n fd texts =
  ((write_events (answers w) n fd (firstn j texts)
      ++ [EvSigpipe fd (nth j texts "")])%list, true).
Proof.
  revert n j. induction texts as [|t rest IH]; intros n j Hj Hopen Hclosed;
    [cbn in Hj; lia|].
  destruct j as [|j]; cbn [write_run firstn nth write_events app].
  - rewrite Nat.add_0_r in Hclosed. now rewrite Hclosed.
  - assert (H0 : pipe_closed w n = false).
    { rewrite <- (Nat.add_0_r n). apply Hopen. lia. }
    rewrite H0, (IH (S n) j); [reflexivity | cbn in Hj; lia | |].
    + intros i Hi. replace (S n + i)%nat with (n + S i)%nat by lia.
      apply Hopen. lia.
    + now replace (S n + j)%nat with (n + S j)%nat by lia.
Qed.

Lemma write_run_on_fd (w : World) (fd : Fd) (texts : list string) (n : nat) :
  Forall (fun ev => on_fd fd ev = true) (fst (write_run w n fd texts)).
Proof.
  revert n. induction texts as [|t rest IH]; intros n; [constructor|].
  cbn [write_run]. destruct (pipe_closed w n).
  - repeat constructor. cbn. now destruct fd.
  - specialize (IH (S n)).
    destruct (write_run w (S n) fd rest) as [evs k]. constructor; [|exact IH].
    cbn. now destruct fd.
Qed.

Lemma on_fd_In (fd : Fd) (evs : list Event) (ev : Event) :
  Forall (fun x => on_fd fd x = true) evs -> In ev evs -> on_fd fd ev = true.
Proof. intros H Hin. rewrite Forall_forall in H. now apply H. Qed.

Lemma on_fd_count (p : Event -> bool) (fd : Fd) (evs : list Event) :
  (forall ev, on_fd fd ev = true -> p ev = false) ->
  Forall (fun x => on_fd fd x = true) evs -> count p evs = 0%nat.
Proof.
  intros Hp. induction 1 as [|ev evs Hev _ IH]; [reflexivity|].
  unfold count in *. cbn [filter]. now rewrite (Hp ev Hev).
Qed.

Lemma on_stderr_stdout (evs : list Event) :
  Forall (fun x => on_fd Stderr x = true) evs -> writes_to Stdout evs = [].
Proof.
  induction 1 as [|ev evs Hev _ IH]; [reflexivity|].
  destruct ev as [ | [|] | | | | | [|] ]; try discriminate Hev; exact IH.
Qed.

Lemma on_fd_not_call (fd : Fd) (ev : Event) :
  on_fd fd ev = true -> is_call ev = false.
Proof. now destruct ev. Qed.

Lemma on_fd_not_close (fd : Fd) (ev : Event) :
  on_fd fd ev = true -> is_Close ev = false.
Proof. now destruct ev. Qed.

Lemma loop_events_writes (e : Env) (n : nat) (tools : list Tool) :
  write_events e n Stdout (map tool_line tools) = loop_events e n tools.
Proof.
  revert n. induction tools as [|t rest IH]; intros n; [reflexivity|].
  cbn -[tool_line]. now rewrite IH.
Qed.

Lemma run_quiet (e : Env) :
  run e = (events_in (quiet e),
           match status_in (quiet e) with Exited c => c | Signaled => -1 end).
Proof.
  unfold run, events_in, status_in, run_in.
  now destruct (main (quiet e) init) as [s [a|c|]].
Qed.

Lemma run_unfold (e : Env) : run e = run_shape e.
Proof.
  rewrite run_quiet. unfold events_in, status_in.
  rewrite run_in_unfold. unfold run_in_shape, run_shape, fatal_in.
  cbn [answers pipe_closed quiet].
  destruct (flag_parse e) as [u|out|out];
    rewrite ?write_run_quiet; try reflexivity.
  destruct (new_transport e (mcp_url e)); [reflexivity|].
  destruct (new_client e (the_transport e)); [reflexivity|].
  destruct (list_tools e (the_client e)) as [err|tools]; [reflexivity|].
  rewrite write_run_quiet, loop_events_writes. reflexivity.
Qed.

(** ** Observations on the printing loop *)

Lemma writes_to_app (fd : Fd) (a b : list Event) :
  writes_to fd (a ++ b) = (writes_to fd a ++ writes_to fd b)%list.
Proof.
  induction a as [|ev a IH]; [reflexivity|].
  destruct ev; cbn; try exact IH.
  destruct (Fd_eqb fd fd0); cbn; now rewrite IH.
Qed.

Lemma content_app (fd : Fd) (a b : list Event) :
  content fd (a ++ b) = content fd a ++ content fd b.
Proof.
  induction a as [|ev a IH]; [reflexivity|].
  destruct ev; cbn; try exact IH.
  destruct (Fd_eqb fd fd0); cbn; rewrite IH; [|reflexivity].
  now rewrite append_assoc.
Qed.

Lemma count_app (p : Event -> bool) (a b : list Event) :
  count p (a ++ b) = (count p a + count p b)%nat.
Proof. unfold count. now rewrite filter_app, length_app. Qed.

Lemma writes_to_sigpipe (fd fd' : Fd) (evs : list Event) (buf : string) :
  writes_to fd (evs ++ [EvSigpipe fd' buf]) = writes_to fd evs.
Proof. rewrite writes_to_app. cbn. apply app_nil_r. Qed.

Lemma write_events_In (e : Env) (n : nat) (fd : Fd) (texts : list string)
      (ev : Event) :
  In ev (write_events e n fd texts) -> exists buf r, ev = EvWrite fd buf r.
Proof.
  revert n. induction texts as [|t rest IH]; intros n; [intros []|].
  intros [<-|Hin]; [now do 2 eexists | exact (IH _ Hin)].
Qed.

Lemma write_events_count (p : Event -> bool) (e : Env) (n : nat) (fd : Fd)
      (texts : list string) :
  (forall fd buf r, p (EvWrite fd buf r) = false) ->
  count p (write_events e n fd texts) = 0%nat.
Proof.
  intros Hp. revert n.
  induction texts as [|t rest IH]; intros n; [reflexivity|].
  unfold count in *. cbn. rewrite Hp. apply IH.
Qed.

(** The events of a run whose command line was not accepted. *)
Lemma flag_run_In (e : Env) (r : FlagOutcome) (out : list string)
      (ev : Event) :
  In ev (EvFlagParse r :: write_events e 0 Stderr out) ->
  ev = EvFlagParse r \/ exists buf r', ev = EvWrite Stderr buf r'.
Proof.
  intros [<-|Hin]; [now left | right; exact (write_events_In _ _ _ _ _ Hin)].
Qed.

Lemma count_flag_run (p : Event -> bool) (e : Env) (r : FlagOutcome)
      (out : list string) :
  p (EvFlagParse r) = false ->
  (forall fd buf r, p (EvWrite fd buf r) = false) ->
  count p (EvFlagParse r :: write_events e 0 Stderr out) = 0%nat.
Proof.
  intros Hr Hp. unfold count. cbn [filter]. rewrite Hr.
  exact (write_events_count p e 0 Stderr out Hp).
Qed.

Lemma write_events_stdout (e : Env) (n : nat) (texts : list string) :
  writes_to Stdout (write_events e n Stderr texts) = [].
Proof.
  revert n. induction texts as [|t rest IH]; intros n; [reflexivity|].
  cbn. apply IH.
Qed.

Section Loop.
Variable e : Env.

Lemma loop_stdout (tools : list Tool) (n : nat) :
  writes_to Stdout (loop_events e n tools) = map tool_line tools.
Proof.
  revert n. induction tools as [|t rest IH]; intros n; [reflexivity|].
  cbn -[tool_line]. now rewrite IH.
Qed.

Lemma loop_stderr (tools : list Tool) (n : nat) :
  writes_to Stderr (loop_events e n tools) = [].
Proof.
  revert n. induction tools as [|t rest IH]; intros n; [reflexivity|].
  cbn -[tool_line]. apply IH.
Qed.

Lemma loop_content (tools : list Tool) (n : nat) :
  (forall k, (n <= k)%nat -> write_result e k = WriteOk) ->
  content Stdout (loop_events e n tools) = join (map tool_line tools).
Proof.
  revert n. induction tools as [|t rest IH]; intros n Hok; [reflexivity|].
  cbn -[tool_line]. rewrite (Hok n (Nat.le_refl n)). cbn -[tool_line].
  f_equal. apply IH. intros k Hk. apply Hok. lia.
Qed.

Lemma loop_count (p : Event -> bool) (tools : list Tool) (n : nat) :
  (forall fd buf r, p (EvWrite fd buf r) = false) ->
  count p (loop_events e n tools) = 0%nat.
Proof.
  intros Hp. revert n.
  induction tools as [|t rest IH]; intros n; [reflexivity|].
  unfold count in *. cbn -[tool_line]. rewrite Hp. apply IH.
Qed.

Lemma loop_In (ev : Event) (tools : list Tool) (n : nat) :
  In ev (loop_events e n tools) ->
  exists t k, In t tools /\ ev = EvWrite Stdout (tool_line t) (write_result e k).
Proof.
  revert n. induction tools as [|t rest IH]; intros n; [intros []|].
  intros [<-|Hin].
  - exists t, n. split; [now left | reflexivity].
  - destruct (IH _ Hin) as (t' & k & Ht & ->).
    exists t', k. split; [now right | reflexivity].
Qed.
End Loop.

Lemma count_lines_tool_line (t : Tool) :
  one_line (Name t) -> one_line (Description t) ->
  count_lines (tool_line t) = 1%nat.
Proof.
  unfold one_line, tool_line. intros Hn Hd.
  rewrite !count_lines_app, Hn, Hd. reflexivity.
Qed.

Lemma count_lines_join (tools : list Tool) :
  Forall (fun t => one_line (Name t) /\ one_line (Description t)) tools ->
  count_lines (join (map tool_line tools)) = length tools.
Proof.
  induction 1 as [|t rest [Hn Hd] _ IH]; [reflexivity|].
  cbn -[tool_line]. rewrite count_lines_app, IH.
  now rewrite count_lines_tool_line.
Qed.

(** ** Successful runs *)

Section Success.
Variable e : Env.
Variable tools : list Tool.
Hypothesis Hconn : connected e.
Hypothesis Hlist : list_tools e (the_client e) = inr tools.

Lemma success_run :
  run e =
  ([EvFlagParse (flag_parse e); startup e;
    EvNewSSEClientTransport (mcp_url e) None;
    EvNewClient (the_transport e) None;
    EvListTools (the_client e) (inr tools)]
     ++ loop_events e 1 tools ++ [EvClose (the_client e)], 0)%list.
Proof.
  destruct Hconn as (Hp & Ht & Hc).
  rewrite run_unfold. unfold run_shape. rewrite Ht, Hc, Hlist.
  destruct (flag_parse e); [reflexivity | discriminate Hp ..].
Qed.

Lemma success_exit : exit_code e = 0.
Proof. unfold exit_code. now rewrite success_run. Qed.

Lemma success_stdout : writes_to Stdout (events e) = map tool_line tools.
Proof.
  unfold events. rewrite success_run. cbn [fst].
  rewrite !writes_to_app, loop_stdout. cbn. apply app_nil_r.
Qed.

Lemma success_stderr :
  writes_to Stderr (events e) =
  [end_line (clock e 0 ++ "Connecting to MCP server: " ++ mcp_url e)].
Proof.
  unfold events. rewrite success_run. cbn [fst].
  rewrite !writes_to_app, loop_stderr. reflexivity.
Qed.

Lemma success_content :
  (forall n, write_result e n = WriteOk) ->
  content Stdout (events e) = join (map tool_line tools).
Proof.
  intros Hok. unfold events. rewrite success_run. cbn [fst].
  rewrite !content_app, loop_content by (intros; apply Hok).
  cbn. apply append_nil_r.
Qed.

Lemma success_close : count is_Close (events e) = 1%nat.
Proof.
  unfold events. rewrite success_run. cbn [fst].
  rewrite !count_app, loop_count by reflexivity. reflexivity.
Qed.

Lemma success_list : count is_ListTools (events e) = 1%nat.
Proof.
  unfold events. rewrite success_run. cbn [fst].
  rewrite !count_app, loop_count by reflexivity. reflexivity.
Qed.
End Success.

(** *** Successful runs in a world *)

Lemma success_run_in (w : World) (tools : list Tool) :
  connected (answers w) ->
  list_tools (answers w) (the_client (answers w)) = inr tools ->
  open_pipes w ->
  run_in w =
  ([EvFlagParse (flag_parse (answers w)); startup (answers w);
    EvNewSSEClientTransport (mcp_url (answers w)) None;
    EvNewClient (the_transport (answers w)) None;
    EvListTools (the_client (answers w)) (inr tools)]
     ++ loop_events (answers w) 1 tools
     ++ [EvClose (the_client (answers w))], Exited 0)%list.
Proof.
  intros (Hp & Ht & Hc) Hl Hopen.
  rewrite run_in_unfold. unfold run_in_shape.
  rewrite (Hopen 0%nat), Ht, Hc, Hl, write_run_open, loop_events_writes
    by (intros; apply Hopen).
  destruct (flag_parse (answers w)); [reflexivity | discriminate Hp ..].
Qed.

(** ** The formatter *)

(** C2. For the descriptors [{A, d1}; {B, d2}] the program hands standard
    output exactly the two records [Name: A Description: d1] and
    [Name: B Description: d2], each ended by a newline, and when the stream
    takes them its content is these two lines and nothing else: no time
    stamp, no prefix, no trailing text. *)
Theorem two_descriptors_two_lines (e : Env) :
  connected e ->
  list_tools e (the_client e) = inr toolsAB ->
  (forall n, write_result e n = WriteOk) ->
  writes_to Stdout (events e) =
    ["Name: A Description: d1" ++ nl; "Name: B Description: d2" ++ nl] /\
  content Stdout (events e) =
    "Name: A Description: d1" ++ nl ++ "Name: B Description: d2" ++ nl /\
  count_lines (content Stdout (events e)) = 2%nat.
Proof.
  intros Hconn Hlist Hok.
  rewrite (success_content e toolsAB Hconn Hlist Hok).
  rewrite (success_stdout e toolsAB Hconn Hlist).
  repeat split.
Qed.

Lemma two_descriptors_two_lines_witness :
  writes_to Stdout (events (ok_env None toolsAB)) =
    ["Name: A Description: d1" ++ nl; "Name: B Description: d2" ++ nl] /\
  content Stdout (events (ok_env None toolsAB)) =
    "Name: A Description: d1" ++ nl ++ "Name: B Description: d2" ++ nl /\
  count_lines (content Stdout (events (ok_env None toolsAB))) = 2%nat.
Proof.
  apply (two_descriptors_two_lines (ok_env None toolsAB)).
  - repeat split.
  - reflexivity.
  - intros n. reflexivity.
Defined.

(** C10. When the listing succeeds with no descriptor, nothing is written
    on standard output and the exit code is 0. *)
Theorem empty_listing_prints_nothing (e : Env) :
  connected e ->
  list_tools e (the_client e) = inr [] ->
  writes_to Stdout (events e) = [] /\
  content Stdout (events e) = "" /\
  exit_code e = 0.
Proof.
  intros Hconn Hlist. split; [|split].
  - now rewrite (success_stdout e [] Hconn Hlist).
  - unfold events. now rewrite (success_run e [] Hconn Hlist).
  - exact (success_exit e [] Hconn Hlist).
Qed.

Lemma empty_listing_prints_nothing_witness :
  writes_to Stdout (events (ok_env None [])) = [] /\
  content Stdout (events (ok_env None [])) = "" /\
  exit_code (ok_env None []) = 0.
Proof.
  apply (empty_listing_prints_nothing (ok_env None [])).
  - repeat split.
  - reflexivity.
Defined.

(** C5, as stated, fails: with standard output on a full disk every write
    of the loop answers an error, and the run still ends with code 0. *)
Lemma write_error_is_not_fatal :
  In (EvWrite Stdout ("Name: A Description: d1" ++ nl) (WriteErr 0))
     (events full_disk_env) /\
  exit_code full_disk_env = 0 /\
  ~ write_error_is_fatal full_disk_env.
Proof.
  assert (Hin : In (EvWrite Stdout ("Name: A Description: d1" ++ nl)
                            (WriteErr 0)) (events full_disk_env)).
  { vm_compute. do 5 right. left. reflexivity. }
  split; [exact Hin|]. split; [reflexivity|].
  intros H. now apply (H _ _ Hin).
Qed.

(** C5, amended.  The formatter has no failure mode of its own, and an
    error of the output stream is fatal only when it is a closed pipe.  An
    error that the write returns is dropped: as long as no write finds its
    pipe closed, whatever the writes answer, a record is handed to standard
    output for every descriptor, the deferred [Close] runs, and the exit
    code is 0.  A write of the loop that finds the pipe closed kills the
    process there: the earlier records have been handed over, [Close] does
    not run, and there is no exit code. *)
Theorem write_errors_are_dropped (w : World) (tools : list Tool) :
  connected (answers w) ->
  list_tools (answers w) (the_client (answers w)) = inr tools ->
  (open_pipes w ->
   writes_to Stdout (events_in w) = map tool_line tools /\
   count is_Close (events_in w) = 1%nat /\
   status_in w = Exited 0) /\
  (forall k, (1 <= k <= length tools)%nat -> first_closed w k ->
   writes_to Stdout (events_in w) = map tool_line (firstn (k - 1) tools) /\
   count is_Close (events_in w) = 0%nat /\
   status_in w = Signaled).
Proof.
  intros Hconn Hlist. split.
  - intros Hopen. unfold events_in, status_in.
    rewrite (success_run_in w tools Hconn Hlist Hopen). cbn [fst snd].
    rewrite !writes_to_app, !count_app, loop_stdout, loop_count
      by reflexivity.
    repeat split. cbn. apply app_nil_r.
  - intros k Hk [Hclosed Hopen]. destruct Hconn as (Hp & Ht & Hc).
    unfold events_in, status_in. rewrite run_in_unfold.
    unfold run_in_shape.
    rewrite (Hopen 0%nat), Ht, Hc, Hlist by lia.
    rewrite (write_run_killed w Stdout (map tool_line tools) 1 (k - 1)).
    + destruct (flag_parse (answers w)); [|discriminate Hp ..].
      cbn [fst snd ended]. rewrite app_nil_r.
      rewrite app_assoc, writes_to_sigpipe, count_app, writes_to_app,
        count_app, firstn_map, loop_events_writes, loop_stdout, loop_count
        by reflexivity.
      repeat split.
    + rewrite length_map. lia.
    + intros i Hi. apply Hopen. lia.
    + replace (1 + (k - 1))%nat with k by lia. exact Hclosed.
Qed.

Lemma write_errors_are_dropped_witness :
  (writes_to Stdout (events_in (quiet full_disk_env))
     = map tool_line toolsAB /\
   count is_Close (events_in (quiet full_disk_env)) = 1%nat /\
   status_in (quiet full_disk_env) = Exited 0) /\
  (writes_to Stdout (events_in head_world)
     = map tool_line (firstn 1 toolsAB) /\
   count is_Close (events_in head_world) = 0%nat /\
   status_in head_world = Signaled).
Proof.
  destruct (write_errors_are_dropped (quiet full_disk_env) toolsAB)
    as [Hdropped _]; [repeat split | reflexivity |].
  destruct (write_errors_are_dropped head_world toolsAB)
    as [_ Hkilled]; [repeat split | reflexivity |].
  split.
  - apply Hdropped. intros n. reflexivity.
  - apply (Hkilled 2%nat); [cbn; lia|].
    split; [reflexivity|].
    intros [|[|j]] Hj; [reflexivity | reflexivity | lia].
Defined.

(** C6, as stated, fails: a description that holds a newline is printed as
    it is, so one descriptor gives two lines. *)
Lemma multi_line_description_two_lines :
  list_tools (ok_env None [two_line_tool])
             (the_client (ok_env None [two_line_tool]))
    = inr [two_line_tool] /\
  ~ one_line_per_descriptor (ok_env None [two_line_tool]) [two_line_tool].
Proof.
  split; [reflexivity|].
  unfold one_line_per_descriptor. vm_compute. discriminate.
Qed.

(** C6, amended.  For every listing the program hands standard output one
    record [Name: <name> Description: <description>] ended by a newline per
    descriptor, in the order of the listing, none skipped, repeated or
    moved; when the stream takes them its content is these records in that
    order, and it has one line per descriptor when no name and no
    description holds a newline. *)
Theorem one_record_per_descriptor (e : Env) (tools : list Tool) :
  connected e ->
  list_tools e (the_client e) = inr tools ->
  writes_to Stdout (events e) = map tool_line tools /\
  ((forall n, write_result e n = WriteOk) ->
   content Stdout (events e) = join (map tool_line tools) /\
   (Forall (fun t => one_line (Name t) /\ one_line (Description t)) tools ->
    one_line_per_descriptor e tools)).
Proof.
  intros Hconn Hlist. split.
  - exact (success_stdout e tools Hconn Hlist).
  - intros Hok. split.
    + exact (success_content e tools Hconn Hlist Hok).
    + intros Hnl. unfold one_line_per_descriptor.
      rewrite (success_content e tools Hconn Hlist Hok).
      now apply count_lines_join.
Qed.

Lemma one_record_per_descriptor_witness :
  writes_to Stdout (events (ok_env None toolsAB)) = map tool_line toolsAB /\
  content Stdout (events (ok_env None toolsAB))
    = join (map tool_line toolsAB) /\
  one_line_per_descriptor (ok_env None toolsAB) toolsAB.
Proof.
  destruct (one_record_per_descriptor (ok_env None toolsAB) toolsAB)
    as [Hw Hc].
  - repeat split.
  - reflexivity.
  - destruct Hc as [Hc Hl]; [intros n; reflexivity|].
    split; [exact Hw|]. split; [exact Hc|].
    apply Hl. repeat constructor.
Defined.

(** ** Failing runs *)

Lemma In_shape (e : Env) (ev x : Event) (pre : list Event)
      (tools : list Tool) (n : nat) :
  In ev (pre ++ loop_events e n tools ++ [x]) ->
  In ev pre \/
  (exists t k, In t tools /\
               ev = EvWrite Stdout (tool_line t) (write_result e k)) \/
  ev = x.
Proof.
  intros H. apply in_app_or in H. destruct H as [H|H]; [now left|].
  apply in_app_or in H. destruct H as [H|H].
  - right. left. exact (loop_In e ev tools n H).
  - right. right. destruct H as [<-|[]]. reflexivity.
Qed.

Section ListingFails.
Variable e : Env.
Variable err : error.
Hypothesis Hconn : connected e.
Hypothesis Hlist : list_tools e (the_client e) = inl err.

Lemma list_failure_run :
  run e =
  ([EvFlagParse (flag_parse e); startup e;
    EvNewSSEClientTransport (mcp_url e) None;
    EvNewClient (the_transport e) None;
    EvListTools (the_client e) (inl err);
    fatal e "Failed to list tools: " err], 1).
Proof.
  destruct Hconn as (Hp & Ht & Hc).
  rewrite run_unfold. unfold run_shape. rewrite Ht, Hc, Hlist.
  destruct (flag_parse e); [reflexivity | discriminate Hp ..].
Qed.

(** The deferred [Close] does not run when [log.Fatalf] ends the process
    after a failed listing. *)
Lemma list_failure_skips_close :
  In (EvNewClient (the_transport e) None) (events e) /\
  count is_Close (events e) = 0%nat /\
  exit_code e = 1.
Proof.
  unfold events, exit_code. rewrite list_failure_run. cbn.
  repeat split. do 3 right. now left.
Qed.
End ListingFails.

(** C1.  The claim asks for exactly one [Close] on every path that has a
    client.  The run in which the listing request fails has a client and
    ends, through [log.Fatalf], with code 1 and without any [Close]: the
    deferred call is lost.  (On the path where the listing succeeds, [Close]
    runs once: [success_close].) *)
Theorem close_is_skipped_when_listing_fails :
  In (EvNewClient (the_transport list_fail_env) None) (events list_fail_env) /\
  In (EvListTools (the_client list_fail_env) (inl "connection reset"))
     (events list_fail_env) /\
  count is_Close (events list_fail_env) = 0%nat /\
  exit_code list_fail_env = 1.
Proof.
  vm_compute. repeat split.
  - do 3 right. now left.
  - do 4 right. now left.
Qed.



(** C4. In a run in which the transport or the client cannot be created no
    listing request is made; and in any run a listing request comes after a
    successful creation of the transport and of the client. *)
Theorem listing_only_after_connect (e : Env) :
  (forall ev, In ev (events e) -> connect_failed ev = true ->
              count is_ListTools (events e) = 0%nat) /\
  (forall pre c r post,
      events e = (pre ++ EvListTools c r :: post)%list ->
      In (EvNewSSEClientTransport (mcp_url e) None) pre /\
      In (EvNewClient (the_transport e) None) pre).
Proof.
  split.
  - intros ev. unfold events, exit_code; rewrite (run_unfold e);
      run_cases e; intros Hin Hf; try reflexivity;
      try (match goal with
           | |- count _ (_ :: write_events _ _ _ ?o) = _ =>
               exact (write_events_count is_ListTools e 0 Stderr o
                        (fun _ _ _ => eq_refl))
           end);
      exfalso.
    + in_cases Hin.
    + apply In_shape in Hin. destruct Hin as [Hin|[(t & k & _ & ->)| ->]];
        [in_cases Hin | discriminate Hf ..].
  - intros pre c r post H.
    assert (Hin : In (EvListTools c r) (events e))
      by (rewrite H; apply in_elt).
    revert H Hin. unfold events; rewrite (run_unfold e); run_cases e;
      intros H Hin.
    1-4: symmetry in H; unfold startup, fatal in H; cbn [app] in H;
      split_at H; cbn [In]; auto 10.
    all: apply flag_run_In in Hin;
      destruct Hin as [Hin|(b & r' & Hin)]; discriminate Hin.
Qed.

Lemma listing_only_after_connect_witness :
  count is_ListTools (events handshake_env) = 0%nat /\
  In (EvNewClient (the_transport (ok_env None toolsAB)) None)
     (firstn 4 (events (ok_env None toolsAB))).
Proof.
  destruct (listing_only_after_connect handshake_env) as [Hnever _].
  destruct (listing_only_after_connect (ok_env None toolsAB)) as [_ Hafter].
  split.
  - apply (Hnever (EvNewClient (the_transport handshake_env)
                               (Some "initialize failed"))).
    + vm_compute. do 3 right. now left.
    + reflexivity.
  - apply (Hafter _ (the_client (ok_env None toolsAB)) (inr toolsAB)
                  (skipn 5 (events (ok_env None toolsAB)))).
    reflexivity.
Defined.

(** *** Failing runs in a world *)

Section FailingIn.
Variable w : World.
Hypothesis Hp : parsed (flag_parse (answers w)) = true.
Hypothesis Hopen0 : pipe_closed w 0 = false.
Hypothesis Hopen1 : pipe_closed w 1 = false.

Lemma transport_failure_run_in (err : error) :
  new_transport (answers w) (mcp_url (answers w)) = Some err ->
  run_in w =
  ([EvFlagParse (flag_parse (answers w)); startup (answers w);
    EvNewSSEClientTransport (mcp_url (answers w)) (Some err);
    fatal (answers w) "Failed to create transport client: " err], Exited 1).
Proof.
  intros Ht. rewrite run_in_unfold. unfold run_in_shape, fatal_in.
  rewrite Hopen0, Hopen1, Ht.
  destruct (flag_parse (answers w)); [reflexivity | discriminate Hp ..].
Qed.

Lemma client_failure_run_in (err : error) :
  new_transport (answers w) (mcp_url (answers w)) = None ->
  new_client (answers w) (the_transport (answers w)) = Some err ->
  run_in w =
  ([EvFlagParse (flag_parse (answers w)); startup (answers w);
    EvNewSSEClientTransport (mcp_url (answers w)) None;
    EvNewClient (the_transport (answers w)) (Some err);
    fatal (answers w) "Failed to create MCP client: " err], Exited 1).
Proof.
  intros Ht Hc. rewrite run_in_unfold. unfold run_in_shape, fatal_in.
  rewrite Hopen0, Hopen1, Ht, Hc.
  destruct (flag_parse (answers w)); [reflexivity | discriminate Hp ..].
Qed.

Lemma list_failure_run_in (err : error) :
  new_transport (answers w) (mcp_url (answers w)) = None ->
  new_client (answers w) (the_transport (answers w)) = None ->
  list_tools (answers w) (the_client (answers w)) = inl err ->
  run_in w =
  ([EvFlagParse (flag_parse (answers w)); startup (answers w);
    EvNewSSEClientTransport (mcp_url (answers w)) None;
    EvNewClient (the_transport (answers w)) None;
    EvListTools (the_client (answers w)) (inl err);
    fatal (answers w) "Failed to list tools: " err], Exited 1).
Proof.
  intros Ht Hc Hl. rewrite run_in_unfold. unfold run_in_shape, fatal_in.
  rewrite Hopen0, Hopen1, Ht, Hc, Hl.
  destruct (flag_parse (answers w)); [reflexivity | discriminate Hp ..].
Qed.

(** A run made of calls, the startup record and the [log.Fatalf] record
    reports the failure. *)
Lemma reports_of_run (pre : list Event) (what : string) (err : error) :
  run_in w = ((pre ++ [fatal (answers w) what err])%list, Exited 1) ->
  writes_to Stdout pre = [] ->
  writes_to Stderr pre = [startup_text (answers w)] ->
  reports w what err.
Proof.
  intros Hrun Hout Herr. unfold reports, events_in, status_in.
  rewrite Hrun. cbn [fst snd]. split; [exists 1; now split|].
  rewrite !writes_to_app, Hout, Herr. split; [reflexivity|].
  exists (startup_text (answers w)), (fatal_text (answers w) what err).
  split; [reflexivity|]. split; [apply end_line_completes|].
  split; [apply end_line_completes|].
  intros Hok. exists (content Stderr pre).
  rewrite content_app. unfold fatal. cbn [content Fd_eqb].
  rewrite Hok. cbn [accepted]. now rewrite append_nil_r.
Qed.
End FailingIn.

(** C3. With an accepted command line, the exit code is 0 when the
    transport, the client, the listing and every write succeed; and when
    the transport, the client or the listing answers an error and the error
    stream takes the two records, the exit code is not 0, nothing is written
    on standard output, and the second record on the error stream is a line
    made of the time, the text that names the failed phase and the text of
    the error. *)
Theorem exit_code_and_report (w : World) :
  parsed (flag_parse (answers w)) = true ->
  (forall tools,
      new_transport (answers w) (mcp_url (answers w)) = None ->
      new_client (answers w) (the_transport (answers w)) = None ->
      list_tools (answers w) (the_client (answers w)) = inr tools ->
      writes_succeed w ->
      status_in w = Exited 0) /\
  (forall err,
      new_transport (answers w) (mcp_url (answers w)) = Some err ->
      pipe_closed w 0 = false -> pipe_closed w 1 = false ->
      reports w "Failed to create transport client: " err) /\
  (forall err,
      new_transport (answers w) (mcp_url (answers w)) = None ->
      new_client (answers w) (the_transport (answers w)) = Some err ->
      pipe_closed w 0 = false -> pipe_closed w 1 = false ->
      reports w "Failed to create MCP client: " err) /\
  (forall err,
      new_transport (answers w) (mcp_url (answers w)) = None ->
      new_client (answers w) (the_transport (answers w)) = None ->
      list_tools (answers w) (the_client (answers w)) = inl err ->
      pipe_closed w 0 = false -> pipe_closed w 1 = false ->
      reports w "Failed to list tools: " err).
Proof.
  intros Hp. repeat apply conj.
  - intros tools Ht Hc Hl Hok. unfold status_in.
    rewrite (success_run_in w tools (conj Hp (conj Ht Hc)) Hl);
      [reflexivity|].
    intros n. apply Hok.
  - intros err Ht H0 H1.
    apply (reports_of_run w
             [EvFlagParse (flag_parse (answers w)); startup (answers w);
              EvNewSSEClientTransport (mcp_url (answers w)) (Some err)]);
      [|reflexivity ..].
    now apply transport_failure_run_in.
  - intros err Ht Hc H0 H1.
    apply (reports_of_run w
             [EvFlagParse (flag_parse (answers w)); startup (answers w);
              EvNewSSEClientTransport (mcp_url (answers w)) None;
              EvNewClient (the_transport (answers w)) (Some err)]);
      [|reflexivity ..].
    now apply client_failure_run_in.
  - intros err Ht Hc Hl H0 H1.
    apply (reports_of_run w
             [EvFlagParse (flag_parse (answers w)); startup (answers w);
              EvNewSSEClientTransport (mcp_url (answers w)) None;
              EvNewClient (the_transport (answers w)) None;
              EvListTools (the_client (answers w)) (inl err)]);
      [|reflexivity ..].
    now apply list_failure_run_in.
Qed.

Lemma exit_code_and_report_witness :
  status_in (quiet (ok_env None toolsAB)) = Exited 0 /\
  reports (quiet unreachable_env) "Failed to create transport client: "
          "no such host" /\
  reports (quiet handshake_env) "Failed to create MCP client: "
          "initialize failed" /\
  reports (quiet list_fail_env) "Failed to list tools: " "connection reset".
Proof.
  destruct (exit_code_and_report (quiet (ok_env None toolsAB)) eq_refl)
    as (Hok & _).
  destruct (exit_code_and_report (quiet unreachable_env) eq_refl)
    as (_ & Htransport & _).
  destruct (exit_code_and_report (quiet handshake_env) eq_refl)
    as (_ & _ & Hclient & _).
  destruct (exit_code_and_report (quiet list_fail_env) eq_refl)
    as (_ & _ & _ & Hlisting).
  split; [apply (Hok toolsAB); try reflexivity; intros n; now split|].
  split; [apply Htransport; reflexivity|].
  split; [apply Hclient; reflexivity | apply Hlisting; reflexivity].
Defined.

(** C7. A run makes at most one listing request, and exactly one once the
    client exists.  When the request fails it is not made again: the run
    ends with code 1 and nothing on standard output.  When it succeeds, the
    records printed are those of its answer. *)
Theorem single_listing_request (e : Env) :
  (count is_ListTools (events e) <= 1)%nat /\
  (forall t, In (EvNewClient t None) (events e) ->
             count is_ListTools (events e) = 1%nat) /\
  (forall c err, In (EvListTools c (inl err)) (events e) ->
                 count is_ListTools (events e) = 1%nat /\
                 exit_code e = 1 /\
                 writes_to Stdout (events e) = []) /\
  (forall c tools, In (EvListTools c (inr tools)) (events e) ->
                   writes_to Stdout (events e) = map tool_line tools).
Proof.
  repeat apply conj.
  - unfold events, exit_code; rewrite (run_unfold e); run_cases e;
      try (cbn; lia); try (rewrite count_flag_run by reflexivity; lia).
    rewrite !count_app, loop_count by reflexivity. cbn. lia.
  - intros t. unfold events, exit_code; rewrite (run_unfold e);
      run_cases e; intros Hin; try reflexivity;
      try (exfalso; in_cases Hin; fail);
      try (exfalso; flag_absurd flag_run_In Hin; fail).
    rewrite !count_app, loop_count by reflexivity. reflexivity.
  - intros c err'. unfold events, exit_code; rewrite (run_unfold e);
      run_cases e; intros Hin;
      try (exfalso; in_cases Hin; fail);
      try (exfalso; flag_absurd flag_run_In Hin; fail).
    + repeat split.
    + exfalso. apply In_shape in Hin.
      destruct Hin as [Hin|[(t & k & _ & Heq)| Heq]];
        [in_cases Hin | discriminate Heq ..].
  - intros c tools'. unfold events, exit_code; rewrite (run_unfold e);
      run_cases e; intros Hin;
      try (exfalso; in_cases Hin; fail);
      try (exfalso; flag_absurd flag_run_In Hin; fail).
    apply In_shape in Hin.
    destruct Hin as [Hin|[(t & k & _ & Heq)| Heq]];
      [| discriminate Heq ..].
    cbn [In] in Hin.
    repeat (destruct Hin as [Hin|Hin]; [try discriminate Hin|]);
      try contradiction.
    injection Hin as _ <-.
    rewrite !writes_to_app, loop_stdout. cbn. apply app_nil_r.
Qed.

Lemma single_listing_request_witness :
  count is_ListTools (events (ok_env None toolsAB)) = 1%nat /\
  (count is_ListTools (events list_fail_env) = 1%nat /\
   exit_code list_fail_env = 1 /\
   writes_to Stdout (events list_fail_env) = []) /\
  writes_to Stdout (events (ok_env None toolsAB)) = map tool_line toolsAB.
Proof.
  destruct (single_listing_request (ok_env None toolsAB))
    as (_ & Hone & _ & Hsame).
  destruct (single_listing_request list_fail_env) as (_ & _ & Hfail & _).
  repeat apply conj.
  - apply (Hone (the_transport (ok_env None toolsAB))).
    vm_compute. do 3 right. now left.
  - apply (Hfail (the_client list_fail_env) "connection reset").
    vm_compute. do 4 right. now left.
  - apply (Hfail (the_client list_fail_env) "connection reset").
    vm_compute. do 4 right. now left.
  - apply (Hfail (the_client list_fail_env) "connection reset").
    vm_compute. do 4 right. now left.
  - apply (Hsame (the_client (ok_env None toolsAB)) toolsAB).
    vm_compute. do 4 right. now left.
Defined.

(** C8. Standard output only ever receives records of listed tools.  With
    an accepted command line the startup record, which names the address, is
    the first write on the error stream; on a successful run standard output
    receives the tool records and nothing else, and the error stream the
    startup record alone; on a failing run standard output receives nothing
    and the record of the failure goes to the error stream. *)
Theorem streams_are_separate (e : Env) :
  (forall buf, In buf (writes_to Stdout (events e)) ->
     exists tools t,
       list_tools e (the_client e) = inr tools /\ In t tools /\
       buf = tool_line t) /\
  (parsed (flag_parse e) = true ->
   (exists rest,
      writes_to Stderr (events e) =
      end_line (clock e 0 ++ "Connecting to MCP server: " ++ mcp_url e)
        :: rest) /\
   (forall tools,
      connected e -> list_tools e (the_client e) = inr tools ->
      writes_to Stdout (events e) = map tool_line tools /\
      writes_to Stderr (events e) =
      [end_line (clock e 0 ++ "Connecting to MCP server: " ++ mcp_url e)] /\
      ((forall n, write_result e n = WriteOk) ->
       content Stdout (events e) = join (map tool_line tools))) /\
   (exit_code e <> 0 ->
    writes_to Stdout (events e) = [] /\
    exists what err,
      In what ["Failed to create transport client: ";
               "Failed to create MCP client: "; "Failed to list tools: "] /\
      writes_to Stderr (events e) =
      [end_line (clock e 0 ++ "Connecting to MCP server: " ++ mcp_url e);
       end_line (clock e 1 ++ what ++ err)])).
Proof.
  split; [|intros Hp; repeat apply conj].
  - intros buf. unfold events, exit_code; rewrite (run_unfold e);
      run_cases e; intros Hin; try (now cbn in Hin);
      try (cbn [writes_to] in Hin; rewrite write_events_stdout in Hin;
           contradiction).
    rewrite !writes_to_app, loop_stdout in Hin.
    cbn -[tool_line] in Hin. rewrite app_nil_r in Hin.
    apply in_map_iff in Hin. destruct Hin as (t & <- & Ht).
    exists tools, t. auto.
  - revert Hp. unfold events, exit_code; rewrite (run_unfold e);
      run_cases e; intros Hp; try discriminate Hp;
      eexists; reflexivity.
  - intros tools Hconn Hl. split; [|split].
    + exact (success_stdout e tools Hconn Hl).
    + exact (success_stderr e tools Hconn Hl).
    + exact (success_content e tools Hconn Hl).
  - revert Hp. unfold events, exit_code; rewrite (run_unfold e);
      run_cases e; intros Hp Hne; try discriminate Hp;
      try (now elim Hne).
    + split; [reflexivity|]. do 2 eexists. split; [|reflexivity].
      cbn. auto.
    + split; [reflexivity|]. do 2 eexists. split; [|reflexivity].
      cbn. auto.
    + split; [reflexivity|]. do 2 eexists. split; [|reflexivity].
      cbn. auto.
Qed.

Lemma streams_are_separate_witness :
  writes_to Stdout (events (ok_env None toolsAB)) = map tool_line toolsAB /\
  writes_to Stderr (events (ok_env None toolsAB)) =
    [end_line ("2025/01/02 03:04:05 " ++ "Connecting to MCP server: "
               ++ default_url)] /\
  content Stdout (events (ok_env None toolsAB))
    = join (map tool_line toolsAB) /\
  writes_to Stdout (events unreachable_env) = [].
Proof.
  destruct (streams_are_separate (ok_env None toolsAB)) as [_ Hok].
  destruct (Hok eq_refl) as (_ & Hsuccess & _).
  destruct (streams_are_separate unreachable_env) as [_ Hbad].
  destruct (Hbad eq_refl) as (_ & _ & Hfail).
  destruct (Hsuccess toolsAB) as (Hout & Herr & Hcontent);
    [repeat split | reflexivity |].
  split; [exact Hout|]. split; [exact Herr|].
  split; [apply Hcontent; intros n; reflexivity|].
  apply Hfail. discriminate.
Defined.

(** ** Further properties of [main] *)

Lemma last_byte_end_line (s : string) :
  last_byte (end_line s) = Some (ascii_of_nat 10).
Proof.
  unfold end_line. destruct (last_byte s) as [c|] eqn:E.
  - destruct (Ascii.eqb c (ascii_of_nat 10)) eqn:Ec.
    + apply Ascii.eqb_eq in Ec. now subst c.
    + now apply last_byte_app_r.
  - now apply last_byte_app_r.
Qed.

Lemma last_byte_tool_line (t : Tool) :
  last_byte (tool_line t) = Some (ascii_of_nat 10).
Proof. unfold tool_line. now repeat apply last_byte_app_r. Qed.

(** An element of [l ++ [y]] other than the last one lies in [l]. *)
Lemma split_before_last (A : Type) (pre post l : list A) (x y : A) :
  (pre ++ x :: post = l ++ [y])%list -> x <> y ->
  exists post', l = (pre ++ x :: post')%list.
Proof.
  revert l. induction pre as [|p pre IH]; intros [|z l] H Hne; cbn in H.
  - injection H as H _. contradiction.
  - injection H as -> _. now exists l.
  - injection H as _ H. now destruct pre.
  - injection H as -> H. destruct (IH l H Hne) as [post' ->].
    now exists post'.
Qed.

Lemma loop_no_call (e : Env) (tools : list Tool) (n : nat) (ev : Event) :
  In ev (loop_events e n tools) -> is_call ev = false /\ failed ev = false.
Proof.
  intros H. destruct (loop_In e ev tools n H) as (t & k & _ & ->).
  now split.
Qed.

(** X2. Failing is final: once a call into the library has answered an
    error, the run makes one more write, the [log.Fatalf] record on the
    error stream, and nothing else: no further call, no [Close]. *)
Theorem failure_is_last_call (e : Env) (pre post : list Event) (ev : Event) :
  events e = (pre ++ ev :: post)%list ->
  failed ev = true ->
  exists msg r, post = [EvWrite Stderr msg r] /\
                Forall (fun x => failed x = false) pre.
Proof.
  unfold events. rewrite (run_unfold e). run_cases e; intros H Hf;
    symmetry in H; unfold startup, fatal in H; cbn [app] in H.
  - split_at H; try (injection H as Hev Hpost; subst ev post); try discriminate Hf.
    do 2 eexists. split; [reflexivity | repeat constructor].
  - split_at H; try (injection H as Hev Hpost; subst ev post); try discriminate Hf.
    do 2 eexists. split; [reflexivity | repeat constructor].
  - split_at H; try (injection H as Hev Hpost; subst ev post); try discriminate Hf.
    do 2 eexists. split; [reflexivity | repeat constructor].
  - exfalso. split_at H; try (injection H as Hev Hpost; subst ev post); try discriminate Hf.
    assert (Hin : In ev (loop_events e 1 tools ++ [EvClose (the_client e)])).
    { rewrite <- H. apply in_elt. }
    apply in_app_or in Hin. destruct Hin as [Hin|[<-|[]]].
    + apply loop_no_call in Hin. destruct Hin as [_ Hin]. congruence.
    + discriminate Hf.
  - exfalso.
    assert (Hin : In ev (EvFlagParse (FlagHelp texts)
                           :: write_events e 0 Stderr texts))
      by (rewrite <- H; apply in_elt).
    apply flag_run_In in Hin.
    destruct Hin as [->|(b & r' & ->)]; discriminate Hf.
  - exfalso.
    assert (Hin : In ev (EvFlagParse (FlagError texts)
                           :: write_events e 0 Stderr texts))
      by (rewrite <- H; apply in_elt).
    apply flag_run_In in Hin.
    destruct Hin as [->|(b & r' & ->)]; discriminate Hf.
Qed.

Lemma failure_is_last_call_witness :
  exists msg r,
    skipn 5 (events list_fail_env) = [EvWrite Stderr msg r] /\
    Forall (fun x => failed x = false) (firstn 4 (events list_fail_env)).
Proof.
  apply (failure_is_last_call list_fail_env
           (firstn 4 (events list_fail_env))
           (skipn 5 (events list_fail_env))
           (EvListTools (the_client list_fail_env) (inl "connection reset")));
    reflexivity.
Defined.

(** The events of [write_run] are writes on its stream. *)
Lemma write_run_In (w : World) (fd : Fd) (texts : list string) (n : nat)
      (evs : list Event) (k : bool) (ev : Event) :
  write_run w n fd texts = (evs, k) -> In ev evs -> on_fd fd ev = true.
Proof.
  intros Hwr. apply on_fd_In.
  pose proof (write_run_on_fd w fd texts n) as H. now rewrite Hwr in H.
Qed.

Lemma write_run_count (p : Event -> bool) (w : World) (fd : Fd)
      (texts : list string) (n : nat) (evs : list Event) (k : bool) :
  (forall ev, on_fd fd ev = true -> p ev = false) ->
  write_run w n fd texts = (evs, k) -> count p evs = 0%nat.
Proof.
  intros Hp Hwr. apply (on_fd_count p fd); [exact Hp|].
  pose proof (write_run_on_fd w fd texts n) as H. now rewrite Hwr in H.
Qed.

(** X3. [Close] runs in every run whose listing request succeeded and that
    is not killed by a closed pipe while printing, and in no other run.  It
    is then the last call of the run, made once, on the client that
    answered the listing, and the exit code is 0. *)
Theorem close_iff_listing_succeeded (w : World) :
  (forall c tools,
      In (EvListTools c (inr tools)) (events_in w) ->
      status_in w <> Signaled ->
      In (EvClose c) (events_in w)) /\
  (forall c,
      In (EvClose c) (events_in w) ->
      exists pre tools,
        events_in w = (pre ++ [EvClose c])%list /\
        In (EvListTools c (inr tools)) pre /\
        count is_Close pre = 0%nat /\
        status_in w = Exited 0).
Proof.
  unfold events_in, status_in. rewrite run_in_unfold. split.
  - intros c tools'. world_cases w; intros Hin Hst;
      try (exfalso; in_cases Hin; fail);
      try (exfalso; now apply Hst).
    + cbn [In] in Hin.
      repeat (destruct Hin as [Hin|Hin]; [try discriminate Hin|]).
      * injection Hin as <- _. do 5 right. apply in_or_app. right. now left.
      * exfalso. apply in_app_or in Hin. destruct Hin as [Hin|Hin].
        -- apply (write_run_In _ _ _ _ _ _ _ Hwr) in Hin. discriminate Hin.
        -- in_cases Hin.
    + exfalso. destruct Hin as [Hin|Hin]; [discriminate Hin|].
      apply (write_run_In _ _ _ _ _ _ _ Hwr) in Hin. discriminate Hin.
    + exfalso. destruct Hin as [Hin|Hin]; [discriminate Hin|].
      apply (write_run_In _ _ _ _ _ _ _ Hwr) in Hin. discriminate Hin.
  - intros c. world_cases w; intros Hin;
      try (exfalso; in_cases Hin; fail).
    + exfalso. cbn [In] in Hin.
      repeat (destruct Hin as [Hin|Hin]; [try discriminate Hin|]).
      rewrite app_nil_r in Hin.
      apply (write_run_In _ _ _ _ _ _ _ Hwr) in Hin. discriminate Hin.
    + cbn [In] in Hin.
      repeat (destruct Hin as [Hin|Hin]; [try discriminate Hin|]).
      apply in_app_or in Hin. destruct Hin as [Hin|Hin].
      * exfalso. apply (write_run_In _ _ _ _ _ _ _ Hwr) in Hin.
        discriminate Hin.
      * destruct Hin as [Hin|[]]. injection Hin as <-.
        exists ([EvFlagParse (FlagParsed u); startup (answers w);
                 EvNewSSEClientTransport (mcp_url (answers w)) None;
                 EvNewClient (the_transport (answers w)) None;
                 EvListTools (the_client (answers w)) (inr tools)]
                  ++ evs)%list, tools.
        split; [now rewrite <- app_assoc|].
        split; [apply in_or_app; left; do 4 right; now left|].
        split; [|reflexivity].
        rewrite count_app, (write_run_count is_Close _ _ _ _ _ _
                              (on_fd_not_close Stdout) Hwr).
        reflexivity.
    + exfalso. destruct Hin as [Hin|Hin]; [discriminate Hin|].
      apply (write_run_In _ _ _ _ _ _ _ Hwr) in Hin. discriminate Hin.
    + exfalso. destruct Hin as [Hin|Hin]; [discriminate Hin|].
      apply (write_run_In _ _ _ _ _ _ _ Hwr) in Hin. discriminate Hin.
    + exfalso. destruct Hin as [Hin|Hin]; [discriminate Hin|].
      apply (write_run_In _ _ _ _ _ _ _ Hwr) in Hin. discriminate Hin.
    + exfalso. destruct Hin as [Hin|Hin]; [discriminate Hin|].
      apply (write_run_In _ _ _ _ _ _ _ Hwr) in Hin. discriminate Hin.
Qed.

Lemma close_iff_listing_succeeded_witness :
  In (EvClose (the_client (ok_env None toolsAB)))
     (events_in (quiet (ok_env None toolsAB))) /\
  exists pre tools,
    events_in (quiet (ok_env None toolsAB))
      = (pre ++ [EvClose (the_client (ok_env None toolsAB))])%list /\
    In (EvListTools (the_client (ok_env None toolsAB)) (inr tools)) pre /\
    count is_Close pre = 0%nat /\
    status_in (quiet (ok_env None toolsAB)) = Exited 0.
Proof.
  destruct (close_iff_listing_succeeded (quiet (ok_env None toolsAB)))
    as [Hthen Honly].
  assert (Hin : In (EvClose (the_client (ok_env None toolsAB)))
                   (events_in (quiet (ok_env None toolsAB)))).
  { apply (Hthen _ toolsAB); [|discriminate].
    vm_compute. do 4 right. now left. }
  split; [exact Hin | exact (Honly _ Hin)].
Defined.

(** X4. With an accepted command line the run starts by writing the startup
    record on the error stream: a line made of the time, the text
    [Connecting to MCP server: ] and the address, which is the value of
    [-url] when the flag is given and [https://mcp-td1.swormlab.com/sse]
    when it is not.  When that write finds its pipe closed the run ends
    there; otherwise the next call asks for a transport to that address.  No
    transport is asked for any other address. *)
Theorem connects_to_logged_address (w : World) (u : option string) :
  flag_parse (answers w) = FlagParsed u ->
  (exists record,
     completes (clock (answers w) 0 ++ "Connecting to MCP server: "
                ++ flag_value u) record /\
     ((pipe_closed w 0 = true /\
       events_in w = [EvFlagParse (FlagParsed u); EvSigpipe Stderr record]) \/
      (pipe_closed w 0 = false /\
       exists r rest,
         events_in w =
         EvFlagParse (FlagParsed u)
           :: EvWrite Stderr record (write_result (answers w) 0)
           :: EvNewSSEClientTransport (flag_value u) r :: rest))) /\
  (forall url r, In (EvNewSSEClientTransport url r) (events_in w) ->
                 url = flag_value u).
Proof.
  intros Hu.
  assert (Hurl : mcp_url (answers w) = flag_value u).
  { unfold mcp_url. rewrite Hu. now destruct u. }
  unfold events_in. rewrite run_in_unfold.
  unfold run_in_shape, fatal_in, startup, startup_text.
  rewrite Hu, Hurl. split.
  - eexists. split; [apply end_line_completes|].
    destruct (pipe_closed w 0); [left; now split|].
    right. split; [reflexivity|].
    destruct (new_transport (answers w) (flag_value u));
      [destruct (pipe_closed w 1); do 2 eexists; reflexivity|].
    destruct (new_client (answers w) (the_transport (answers w)));
      [destruct (pipe_closed w 1); do 2 eexists; reflexivity|].
    destruct (list_tools (answers w) (the_client (answers w)));
      [destruct (pipe_closed w 1); do 2 eexists; reflexivity|].
    destruct (write_run w 1 Stdout (map tool_line l)) as [evs k].
    do 2 eexists. reflexivity.
  - intros url r.
    destruct (pipe_closed w 0); [intros Hin; in_cases Hin|].
    destruct (new_transport (answers w) (flag_value u)).
    { destruct (pipe_closed w 1); intros Hin; in_cases Hin;
        now injection Hin. }
    destruct (new_client (answers w) (the_transport (answers w))).
    { destruct (pipe_closed w 1); intros Hin; in_cases Hin;
        now injection Hin. }
    destruct (list_tools (answers w) (the_client (answers w))).
    { destruct (pipe_closed w 1); intros Hin; in_cases Hin;
        now injection Hin. }
    destruct (write_run w 1 Stdout (map tool_line l)) as [evs k] eqn:Hwr.
    cbn [fst app In]. intros Hin.
    repeat (destruct Hin as [Hin|Hin]; [try discriminate Hin|]).
    + now injection Hin.
    + exfalso. apply in_app_or in Hin. destruct Hin as [Hin|Hin].
      * apply (write_run_In _ _ _ _ _ _ _ Hwr) in Hin. discriminate Hin.
      * destruct k; in_cases Hin.
Qed.

Lemma connects_to_logged_address_witness :
  (exists record,
     completes (clock unreachable_env 0 ++ "Connecting to MCP server: "
                ++ "http://nowhere/sse") record /\
     ((pipe_closed (quiet unreachable_env) 0 = true /\
       events_in (quiet unreachable_env) =
       [EvFlagParse (FlagParsed (Some "http://nowhere/sse"));
        EvSigpipe Stderr record]) \/
      (pipe_closed (quiet unreachable_env) 0 = false /\
       exists r rest,
         events_in (quiet unreachable_env) =
         EvFlagParse (FlagParsed (Some "http://nowhere/sse"))
           :: EvWrite Stderr record (write_result unreachable_env 0)
           :: EvNewSSEClientTransport "http://nowhere/sse" r :: rest))) /\
  (forall url r,
      In (EvNewSSEClientTransport url r) (events_in (quiet unreachable_env)) ->
      url = "http://nowhere/sse").
Proof.
  exact (connects_to_logged_address (quiet unreachable_env)
           (Some "http://nowhere/sse") eq_refl).
Defined.

(** X5. Calls into the library are made only when [flag.Parse] accepted
    the command line.  When it did not, nothing is written on standard
    output, and the run ends with exit code 2 for a bad command line and 0
    for a request for help, unless one of the writes on the error stream
    finds its pipe closed and kills the process. *)
Theorem no_call_without_accepted_flags (w : World) :
  (forall ev, In ev (events_in w) -> is_call ev = true ->
              parsed (flag_parse (answers w)) = true) /\
  (parsed (flag_parse (answers w)) = false ->
   count is_call (events_in w) = 0%nat /\
   writes_to Stdout (events_in w) = [] /\
   (status_in w = Signaled \/
    status_in w =
    Exited (match flag_parse (answers w) with FlagError _ => 2 | _ => 0 end))
   /\
   (open_pipes w ->
    status_in w =
    Exited (match flag_parse (answers w) with FlagError _ => 2 | _ => 0 end))).
Proof.
  unfold events_in, status_in. rewrite run_in_unfold. split.
  - intros ev. world_cases w; intros Hin Hc; try reflexivity; exfalso;
      (destruct Hin as [<-|Hin]; [discriminate Hc|]);
      apply (write_run_In _ _ _ _ _ _ _ Hwr) in Hin;
      apply on_fd_not_call in Hin; congruence.
  - world_cases w; intros Hp; try discriminate Hp;
      (split; [|split; [|split]]);
      try (unfold count; cbn [filter is_call];
           exact (write_run_count is_call _ _ _ _ _ _
                    (on_fd_not_call Stderr) Hwr));
      try (cbn [writes_to]; apply on_stderr_stdout;
           pose proof (write_run_on_fd w Stderr texts 0) as Hfd;
           now rewrite Hwr in Hfd);
      try (now left); try (now right); try reflexivity;
      intros Hopen; exfalso;
      rewrite write_run_open in Hwr by (intros; apply Hopen);
      discriminate Hwr.
Qed.

Lemma no_call_without_accepted_flags_witness :
  count is_call (events_in (quiet bad_flag_env)) = 0%nat /\
  writes_to Stdout (events_in (quiet bad_flag_env)) = [] /\
  (status_in (quiet bad_flag_env) = Signaled \/
   status_in (quiet bad_flag_env) = Exited 2) /\
  (open_pipes (quiet bad_flag_env) ->
   status_in (quiet bad_flag_env) = Exited 2).
Proof.
  apply (no_call_without_accepted_flags (quiet bad_flag_env)). reflexivity.
Defined.

(** X6. Every record the two loggers write ends with a newline, whatever
    the address, the error text or the descriptor holds: the logger adds
    the newline that [log.Printf] and [log.Fatalf] leave out, and does not
    add one to the tool records, whose format already ends with it. *)
Theorem records_end_with_newline (e : Env) (fd : Fd) (buf : string)
        (r : WriteOutcome) :
  parsed (flag_parse e) = true ->
  In (EvWrite fd buf r) (events e) ->
  last_byte buf = Some (ascii_of_nat 10).
Proof.
  unfold events. rewrite (run_unfold e). unfold startup, fatal.
  run_cases e; intros Hp Hin; try discriminate Hp.
  - in_cases Hin; injection Hin as _ <- _; apply last_byte_end_line.
  - in_cases Hin; injection Hin as _ <- _; apply last_byte_end_line.
  - in_cases Hin; injection Hin as _ <- _; apply last_byte_end_line.
  - apply In_shape in Hin.
    destruct Hin as [Hin|[(t & k & _ & Heq)| Heq]]; [| | discriminate Heq].
    + in_cases Hin; injection Hin as _ <- _; apply last_byte_end_line.
    + injection Heq as _ -> _. apply last_byte_tool_line.
Qed.

Lemma records_end_with_newline_witness :
  last_byte ("Name: A Description: d1" ++ nl) = Some (ascii_of_nat 10).
Proof.
  apply (records_end_with_newline (ok_env None toolsAB) Stdout _ WriteOk
           eq_refl).
  vm_compute. do 5 right. now left.
Defined.

(** X7. Printing happens between the listing and [Close]: before any
    write on standard output the listing request has been answered with a
    list and [Close] has not been called; and [Close] follows the write
    unless the process is killed by a closed pipe. *)
Theorem printing_between_listing_and_close (w : World)
        (pre post : list Event) (buf : string) (r : WriteOutcome) :
  events_in w = (pre ++ EvWrite Stdout buf r :: post)%list ->
  (exists c tools, In (EvListTools c (inr tools)) pre) /\
  count is_Close pre = 0%nat /\
  (status_in w <> Signaled -> In (EvClose (the_client (answers w))) post).
Proof.
  unfold events_in, status_in. rewrite run_in_unfold.
  world_cases w; intros H; symmetry in H; unfold startup, fatal in H;
    cbn [app] in H; split_at H.
  - rewrite app_nil_r in H.
    assert (Hc : count is_Close evs = 0%nat)
      by exact (write_run_count is_Close _ _ _ _ _ _
                  (on_fd_not_close Stdout) Hwr).
    rewrite <- H, count_app in Hc.
    split; [do 2 eexists; do 4 right; now left|]. split.
    + change (count is_Close pre = 0%nat). lia.
    + intros Hst. now elim Hst.
  - destruct (split_before_last _ _ _ _ _ _ H) as [post' Hl];
      [discriminate|].
    assert (Hc : count is_Close evs = 0%nat)
      by exact (write_run_count is_Close _ _ _ _ _ _
                  (on_fd_not_close Stdout) Hwr).
    rewrite Hl, count_app in Hc.
    rewrite Hl, <- app_assoc in H. apply app_inv_head in H.
    injection H as ->.
    split; [do 2 eexists; do 4 right; now left|]. split.
    + change (count is_Close pre = 0%nat). lia.
    + intros _. apply in_or_app. right. now left.
  - exfalso.
    assert (Hin : In (EvWrite Stdout buf r) evs)
      by (rewrite <- H; apply in_elt).
    apply (write_run_In _ _ _ _ _ _ _ Hwr) in Hin. discriminate Hin.
  - exfalso.
    assert (Hin : In (EvWrite Stdout buf r) evs)
      by (rewrite <- H; apply in_elt).
    apply (write_run_In _ _ _ _ _ _ _ Hwr) in Hin. discriminate Hin.
  - exfalso.
    assert (Hin : In (EvWrite Stdout buf r) evs)
      by (rewrite <- H; apply in_elt).
    apply (write_run_In _ _ _ _ _ _ _ Hwr) in Hin. discriminate Hin.
  - exfalso.
    assert (Hin : In (EvWrite Stdout buf r) evs)
      by (rewrite <- H; apply in_elt).
    apply (write_run_In _ _ _ _ _ _ _ Hwr) in Hin. discriminate Hin.
Qed.

Lemma printing_between_listing_and_close_witness :
  (exists c tools,
      In (EvListTools c (inr tools))
         (firstn 5 (events_in (quiet (ok_env None toolsAB)))))
  /\ count is_Close (firstn 5 (events_in (quiet (ok_env None toolsAB))))
     = 0%nat
  /\ (status_in (quiet (ok_env None toolsAB)) <> Signaled ->
      In (EvClose (the_client (ok_env None toolsAB)))
         (skipn 6 (events_in (quiet (ok_env None toolsAB))))).
Proof.
  apply (printing_between_listing_and_close (quiet (ok_env None toolsAB))
           _ _ ("Name: A Description: d1" ++ nl) WriteOk).
  reflexivity.
Defined.
